(** * Odel module SDK extensions: error taxonomy, context resolver,
      response envelope and validators.

    A shallow embedding of [src/odel/errors.ts], [src/odel/types.ts],
    [src/odel/context.ts], [src/odel/schemas.ts] and the [emailList] rule of
    [src/odel/validators.ts], followed by the properties of the specification
    that are about them.

    Conventions of the embedding:
    - a JavaScript [number] is an IEEE 754 binary64 value, here a primitive
      float;
    - a JavaScript string is a [string]; code units above 255 are outside the
      model;
    - an object used as a record of named properties ([Record<string, T>],
      an object literal, a zod shape) is the [gmap string T] of its own
      properties, equality is deep equality up to property order; where the
      sources index such an object with a name the caller chooses
      ([context.secrets[secretName]]), the read also finds the members every
      plain object inherits from [Object.prototype];
    - an optional property or parameter ([x?: T]) is an [option T], [None]
      standing for [undefined];
    - [Date.now()], [crypto.randomUUID()] and [throw] are effects of a small
      state-and-exception monad. *)

From Stdlib Require Import Floats.PrimFloat Ascii String.
From stdpp Require Import base option list strings pretty gmap.

Local Open Scope string_scope.
Set Warnings "-register-all".

(** ** JavaScript values *)

Module Js.

Definition number := float.

(** A JSON-like universe for [unknown]. *)
Inductive value :=
| VUndefined
| VNull
| VBool (b : bool)
| VNum (n : number)
| VStr (s : string)
| VArr (l : list value)
| VObj (o : gmap string value).

(** ToBoolean on numbers: [+0], [-0] and [NaN] are falsy. *)
Definition number_truthy (n : number) : bool :=
  negb (PrimFloat.is_zero n || PrimFloat.is_nan n).

Definition string_truthy (s : string) : bool :=
  match s with
  | EmptyString => false
  | String _ _ => true
  end.

(** ToBoolean. *)
Definition to_boolean (v : value) : bool :=
  match v with
  | VUndefined | VNull => false
  | VBool b => b
  | VNum n => number_truthy n
  | VStr s => string_truthy s
  | VArr _ | VObj _ => true
  end.

(** An optional value seen as a JavaScript value. *)
Definition of_option {A} (inj : A → value) (o : option A) : value :=
  from_option inj VUndefined o.

(** [a && b]. *)
Definition js_and (a b : value) : value :=
  if to_boolean a then b else a.

(** [a ?? b] on an optional: only [undefined] falls through. *)
Definition nullish {A} (a : option A) (b : A) : A :=
  match a with
  | Some x => x
  | None => b
  end.

(** [a ?? b] where [b] may be [undefined] too. *)
Definition nullish_opt {A} (a b : option A) : option A :=
  match a with
  | Some x => Some x
  | None => b
  end.

(** Object spread inside a literal, read from the spread outwards:
    [spread_obj src target] are the properties of [{ ...target, ...src }],
    those of [src] winning over the ones written before it. *)
Definition spread_obj {A} (src target : gmap string A) : gmap string A :=
  src ∪ target.

(** Spreading a value: [undefined], [null], a boolean or a number adds
    nothing. *)
Definition spread (src : value) (target : gmap string value) : gmap string value :=
  match src with
  | VObj o => spread_obj o target
  | _ => target
  end.

(** The names of the members a plain object inherits from
    [Object.prototype]: those of the language standard, with the accessors
    of its annex on web browsers, which every engine carries. *)
Definition Object_prototype_names : list string :=
  [ "constructor"; "hasOwnProperty"; "isPrototypeOf"; "propertyIsEnumerable";
    "toLocaleString"; "toString"; "valueOf"; "__proto__";
    "__defineGetter__"; "__defineSetter__"; "__lookupGetter__"; "__lookupSetter__" ].

(** What [o[name]] reads on a plain object [o] (an object literal, or an
    object of [JSON.parse]): the own property of that name; failing that,
    the member of that name inherited from [Object.prototype], a function
    (the prototype object itself for [__proto__]); failing that,
    [undefined]. *)
Inductive property (A : Type) :=
| OwnProperty (a : A)
| InheritedMember (name : string)
| NoProperty.
Arguments OwnProperty {A} a.
Arguments InheritedMember {A} name.
Arguments NoProperty {A}.

(** [o[name]]. *)
Definition get_property {A} (o : gmap string A) (name : string) : property A :=
  match o !! name with
  | Some a => OwnProperty a
  | None =>
      if bool_decide (name ∈ Object_prototype_names)
      then InheritedMember name
      else NoProperty
  end.

(** ToBoolean of what was read from an object of strings: functions and
    objects are truthy. *)
Definition property_truthy (p : property string) : bool :=
  match p with
  | OwnProperty s => string_truthy s
  | InheritedMember _ => true
  | NoProperty => false
  end.

(** [a === b] for the primitives a literal schema can hold; two object
    values met at different places are never the same reference. *)
Definition strict_equals (a b : value) : bool :=
  match a, b with
  | VUndefined, VUndefined => true
  | VNull, VNull => true
  | VBool x, VBool y => bool_decide (x = y)
  | VNum x, VNum y => PrimFloat.eqb x y
  | VStr x, VStr y => bool_decide (x = y)
  | _, _ => false
  end.

(** The double quote, for template literals. *)
Definition dq : string := String "034"%char EmptyString.

(** [s.split(sep)] for a separator of one code unit. *)
Fixpoint split (sep : ascii) (s : string) : list string :=
  match s with
  | EmptyString => [EmptyString]
  | String c s' =>
      if bool_decide (c = sep) then EmptyString :: split sep s'
      else match split sep s' with
           | seg :: rest => String c seg :: rest
           | [] => [String c EmptyString]
           end
  end.

(** White space and line terminators below U+0100. *)
Definition is_white_space (c : ascii) : bool :=
  let n := nat_of_ascii c in
  bool_decide (n = 9 ∨ n = 10 ∨ n = 11 ∨ n = 12 ∨ n = 13 ∨ n = 32 ∨ n = 160)%nat.

Fixpoint trimStart (s : string) : string :=
  match s with
  | EmptyString => EmptyString
  | String c s' => if is_white_space c then trimStart s' else s
  end.

Fixpoint trimEnd (s : string) : string :=
  match s with
  | EmptyString => EmptyString
  | String c s' =>
      match trimEnd s' with
      | EmptyString => if is_white_space c then EmptyString else String c EmptyString
      | t => String c t
      end
  end.

(** [s.trim()]. *)
Definition trim (s : string) : string := trimEnd (trimStart s).

(** *** Vocabulary on strings, for the statements *)

(** Every code unit of [s] satisfies [p]. *)
Fixpoint every (p : ascii → bool) (s : string) : bool :=
  match s with
  | EmptyString => true
  | String c s' => p c && every p s'
  end.

Definition first_unit (s : string) : option ascii :=
  match s with
  | EmptyString => None
  | String c _ => Some c
  end.

Fixpoint last_unit (s : string) : option ascii :=
  match s with
  | EmptyString => None
  | String c s' =>
      match s' with
      | EmptyString => Some c
      | String _ _ => last_unit s'
      end
  end.

Definition not_white_space (c : ascii) : bool := negb (is_white_space c).

Definition not_comma (c : ascii) : bool := negb (bool_decide (c = ","%char)).

(** Neither the first nor the last code unit of [s] is white space; the
    empty string qualifies. *)
Definition no_surrounding_white_space (s : string) : bool :=
  from_option not_white_space true (first_unit s)
  && from_option not_white_space true (last_unit s).

(** A segment of a comma-separated list as it is written: the text proper
    between two runs of padding. *)
Record segment := {
  pad_left : string;
  core : string;
  pad_right : string
}.

Definition written (g : segment) : string :=
  pad_left g +:+ core g +:+ pad_right g.

(** The padding is white space, the text proper holds no comma and has no
    white space at either end. *)
Definition well_padded (g : segment) : bool :=
  every is_white_space (pad_left g)
  && every is_white_space (pad_right g)
  && every not_comma (core g)
  && no_surrounding_white_space (core g).

(** *** Completions and the effect monad *)

Section Monad.
Context {E S : Type}.

Inductive completion (A : Type) :=
| Normal (a : A)
| Throw (e : E).

(** A computation over a mutable state [S] that may throw an [E]. *)
Definition M (A : Type) : Type := S → completion A * S.

Definition ret {A} (a : A) : M A := λ s, (Normal A a, s).

Definition throw {A} (e : E) : M A := λ s, (Throw A e, s).

Definition bind {A B} (m : M A) (k : A → M B) : M B :=
  λ s, match m s with
       | (Normal _ a, s') => k a s'
       | (Throw _ e, s') => (Throw B e, s')
       end.

(** Read a component of the state. *)
Definition reads {A} (f : S → A) : M A := λ s, (Normal A (f s), s).

Definition modify (f : S → S) : M unit := λ s, (Normal unit tt, f s).
End Monad.

Arguments completion : clear implicits.
Arguments M : clear implicits.
Arguments Normal {E A} a.
Arguments Throw {E A} e.

End Js.

Notation "'let*' x ':=' m 'in' k" := (Js.bind m (λ x, k))
  (at level 10, x name, m at level 100, k at level 200, only parsing).

(** ** Error taxonomy ([errors.ts]) *)

Module Errors.
Import Js.

(** [enum ErrorCode]. *)
Inductive ErrorCode :=
| INVALID_INPUT
| MISSING_REQUIRED_FIELD
| INVALID_FORMAT
| MISSING_SECRET
| INVALID_SECRET
| UNAUTHORIZED
| API_ERROR
| NETWORK_ERROR
| TIMEOUT
| NOT_FOUND
| RATE_LIMIT_EXCEEDED
| QUOTA_EXCEEDED
| INTERNAL_ERROR
| NOT_IMPLEMENTED
| CONFIGURATION_ERROR.

(** The numeric value of each member. *)
Definition ErrorCode_value (c : ErrorCode) : number :=
  match c with
  | INVALID_INPUT => 1001
  | MISSING_REQUIRED_FIELD => 1002
  | INVALID_FORMAT => 1003
  | MISSING_SECRET => 2001
  | INVALID_SECRET => 2002
  | UNAUTHORIZED => 2003
  | API_ERROR => 3001
  | NETWORK_ERROR => 3002
  | TIMEOUT => 3003
  | NOT_FOUND => 3004
  | RATE_LIMIT_EXCEEDED => 4001
  | QUOTA_EXCEEDED => 4002
  | INTERNAL_ERROR => 5001
  | NOT_IMPLEMENTED => 5002
  | CONFIGURATION_ERROR => 5003
  end%float.

(** [Record<string, unknown>]. *)
Abbreviation Metadata := (gmap string value).

(** [class ModuleError extends Error]: the inherited [message], the fixed
    [name] and the two readonly parameter properties. *)
Record ModuleError := new_ModuleError_fields {
  name : string;
  code : ErrorCode;
  message : string;
  metadata : option Metadata
}.

(** [new ModuleError(code, message, metadata?)]. *)
Definition new_ModuleError (code : ErrorCode) (message : string)
    (metadata : option Metadata) : ModuleError :=
  {| name := "ModuleError"; code := code; message := message; metadata := metadata |}.

(** What a [throw] can carry here: a plain [new Error(message)] or a
    [ModuleError]. *)
Inductive thrown :=
| PlainError (message : string)
| OfModuleError (e : ModuleError).

(** [e instanceof ModuleError]. *)
Definition instanceof_ModuleError (t : thrown) : bool :=
  match t with
  | PlainError _ => false
  | OfModuleError _ => true
  end.

(** [e.message], which both carry. *)
Definition thrown_message (t : thrown) : string :=
  match t with
  | PlainError m => m
  | OfModuleError e => message e
  end.

(** [toJSON()]. *)
(** The three properties [toJSON] writes for every error:
    [{ success: false, error: this.message, code: this.code }]. *)
Definition envelope_base (this : ModuleError) : gmap string value :=
  <[ "code" := VNum (ErrorCode_value (code this)) ]>
    (<[ "error" := VStr (message this) ]> (<[ "success" := VBool false ]> ∅)).

(** [toJSON()]: the three properties, then
    [...(this.metadata && { metadata: this.metadata })]. *)
Definition toJSON (this : ModuleError) : gmap string value :=
  spread
    (js_and (of_option VObj (metadata this))
            (VObj {[ "metadata" := of_option VObj (metadata this) ]}))
    (envelope_base this).

Definition validationError (message : string) (metadata : option Metadata) : ModuleError :=
  new_ModuleError INVALID_INPUT message metadata.

Definition missingField (fieldName : string) : ModuleError :=
  new_ModuleError MISSING_REQUIRED_FIELD
    ("Required field " +:+ dq +:+ fieldName +:+ dq +:+ " is missing")
    (Some {[ "field" := VStr fieldName ]}).

Definition missingSecret (secretName : string) : ModuleError :=
  new_ModuleError MISSING_SECRET
    ("Required secret " +:+ dq +:+ secretName +:+ dq +:+ " is not configured")
    (Some {[ "secretName" := VStr secretName ]}).

Definition invalidSecret (secretName : string) (reason : option string) : ModuleError :=
  let message :=
    if to_boolean (of_option VStr reason)
    then "Secret " +:+ dq +:+ secretName +:+ dq +:+ " is invalid: " +:+ default "" reason
    else "Secret " +:+ dq +:+ secretName +:+ dq +:+ " is invalid" in
  new_ModuleError INVALID_SECRET message (Some {[ "secretName" := VStr secretName ]}).

Definition apiError (message : string) (metadata : option Metadata) : ModuleError :=
  new_ModuleError API_ERROR message metadata.

Definition networkError (message : string) (metadata : option Metadata) : ModuleError :=
  new_ModuleError NETWORK_ERROR message metadata.

(** [timeoutMs ? { timeoutMs } : undefined]: the test is on the value's
    truthiness. *)
Definition timeout (operation : string) (timeoutMs : option number) : ModuleError :=
  new_ModuleError TIMEOUT
    ("Operation " +:+ dq +:+ operation +:+ dq +:+ " timed out")
    (if to_boolean (of_option VNum timeoutMs)
     then Some {[ "timeoutMs" := of_option VNum timeoutMs ]}
     else None).

Definition notFound (resource : string) (identifier : option string) : ModuleError :=
  let message :=
    if to_boolean (of_option VStr identifier)
    then resource +:+ " " +:+ dq +:+ default "" identifier +:+ dq +:+ " not found"
    else resource +:+ " not found" in
  new_ModuleError NOT_FOUND message
    (if to_boolean (of_option VStr identifier)
     then Some {[ "identifier" := of_option VStr identifier ]}
     else None).

Definition rateLimitError (retryAfter : option number) : ModuleError :=
  new_ModuleError RATE_LIMIT_EXCEEDED "Rate limit exceeded"
    (if to_boolean (of_option VNum retryAfter)
     then Some {[ "retryAfter" := of_option VNum retryAfter ]}
     else None).

Definition quotaExceeded (quotaType : option string) : ModuleError :=
  let message :=
    if to_boolean (of_option VStr quotaType)
    then default "" quotaType +:+ " quota exceeded"
    else "Quota exceeded" in
  new_ModuleError QUOTA_EXCEEDED message
    (if to_boolean (of_option VStr quotaType)
     then Some {[ "quotaType" := of_option VStr quotaType ]}
     else None).

Definition internalError (message : string) (metadata : option Metadata) : ModuleError :=
  new_ModuleError INTERNAL_ERROR message metadata.

Definition notImplemented (feature : string) : ModuleError :=
  new_ModuleError NOT_IMPLEMENTED
    ("Feature " +:+ dq +:+ feature +:+ dq +:+ " is not implemented")
    (Some {[ "feature" := VStr feature ]}).

Definition configurationError (message : string) (metadata : option Metadata) : ModuleError :=
  new_ModuleError CONFIGURATION_ERROR message metadata.

End Errors.

(** ** Context types ([types.ts]) *)

Module Types.
Import Js.

(** [interface ModuleContext]. *)
Record ModuleContext := {
  userId : string;
  conversationId : option string;
  displayName : option string;
  timestamp : number;
  requestId : string;
  secrets : gmap string string
}.

(** [interface ToolContext<Env> extends ModuleContext]. *)
Record ToolContext (Env : Type) := {
  base : ModuleContext;
  env : Env
}.
Arguments base {Env} _.
Arguments env {Env} _.

(** [const DEFAULT_MODULE_CONTEXT], whose [timestamp] is the value of
    [Date.now()] when the module was loaded.  It has no [conversationId]. *)
Definition DEFAULT_MODULE_CONTEXT (loaded_at : number) : ModuleContext :=
  {| userId := "anonymous";
     conversationId := None;
     displayName := Some "Anonymous User";
     timestamp := loaded_at;
     requestId := "no-request-id";
     secrets := ∅ |}.

End Types.

(** ** Context resolver ([context.ts]) *)

Module Context.
Import Js Errors Types.

(** [Partial<ModuleContext>]. *)
Record PartialModuleContext := {
  p_userId : option string;
  p_conversationId : option string;
  p_displayName : option string;
  p_timestamp : option number;
  p_requestId : option string;
  p_secrets : option (gmap string string)
}.

(** [interface RequestBodyWithContext]; [jsonrpc] is the constant ['2.0']. *)
Record RequestBodyWithContext := {
  id : string + number;
  method : string;
  params : option (gmap string value);
  context : option PartialModuleContext
}.

(** The host as the resolver sees it: the time the module was loaded, the
    wall clock, and the generator behind [crypto.randomUUID()], of which
    [uuid_drawn] identifiers have been handed out so far. *)
Record Host := {
  loaded_at : number;
  clock : number;
  uuid_source : nat → string;
  uuid_drawn : nat
}.

(** [Date.now()]. *)
Definition Date_now : M thrown Host number := reads clock.

(** The host after one more identifier has been handed out. *)
Definition drawn_one (h : Host) : Host :=
  {| loaded_at := loaded_at h;
     clock := clock h;
     uuid_source := uuid_source h;
     uuid_drawn := S (uuid_drawn h) |}.

(** [crypto.randomUUID()]: the next identifier of the generator. *)
Definition crypto_randomUUID : M thrown Host string :=
  let* u := reads (λ h, uuid_source h (uuid_drawn h)) in
  let* _ := modify drawn_one in
  ret u.

(** [a ?? b] where [b] is an effectful expression, evaluated only when [a]
    is [undefined]. *)
Definition nullish_eff {A} (a : option A) (b : M thrown Host A) : M thrown Host A :=
  match a with
  | Some x => ret x
  | None => b
  end.

(** [extractContext(body)].  An object is always truthy, so [!ctx] holds
    exactly when [body.context] is [undefined]. *)
Definition extractContext (body : RequestBodyWithContext) : M thrown Host ModuleContext :=
  match context body with
  | None =>
      let* dflt := reads (λ h, DEFAULT_MODULE_CONTEXT (loaded_at h)) in
      let* now := Date_now in
      let* uuid := crypto_randomUUID in
      ret {| userId := userId dflt;
             conversationId := conversationId dflt;
             displayName := displayName dflt;
             timestamp := now;
             requestId := uuid;
             secrets := secrets dflt |}
  | Some ctx =>
      let* dflt := reads (λ h, DEFAULT_MODULE_CONTEXT (loaded_at h)) in
      let* ts := nullish_eff (p_timestamp ctx) Date_now in
      let* rid := nullish_eff (p_requestId ctx) crypto_randomUUID in
      ret {| userId := nullish (p_userId ctx) (userId dflt);
             conversationId := p_conversationId ctx;
             displayName := nullish_opt (p_displayName ctx) (displayName dflt);
             timestamp := ts;
             requestId := rid;
             secrets := nullish (p_secrets ctx) ∅ |}
  end.

(** [createToolContext(moduleContext, env)]. *)
Definition createToolContext {Env} (moduleContext : ModuleContext) (env : Env) : ToolContext Env :=
  {| base := moduleContext; env := env |}.

(** [extractToolContext(body, env)]. *)
Definition extractToolContext {Env} (body : RequestBodyWithContext) (env : Env)
    : M thrown Host (ToolContext Env) :=
  let* c := extractContext body in
  ret (createToolContext c env).

(** [context.secrets[secretName]]. *)
Definition read_secret (secretName : string)
    : M thrown ModuleContext (property string) :=
  reads (λ context, get_property (secrets context) secretName).

(** [getRequiredSecret(context, secretName)], run on the context object as
    the state it could write to.  [!value] holds for [undefined] and for the
    empty string; the value returned is the value read. *)
Definition getRequiredSecret (context : ModuleContext) (secretName : string)
    : completion thrown (property string) * ModuleContext :=
  (let* value := read_secret secretName in
   if negb (property_truthy value)
   then throw (PlainError
          ("Required secret " +:+ dq +:+ secretName +:+ dq +:+ " is not configured"))
   else ret value) context.

(** [getOptionalSecret(context, secretName)]. *)
Definition getOptionalSecret (context : ModuleContext) (secretName : string)
    : completion thrown (property string) * ModuleContext :=
  (let* value := read_secret secretName in
   ret value) context.

End Context.

(** ** The schema engine

    [zod] is a dependency of the package, not part of it.  The combinators
    the sources call are given here with the behaviour zod documents for a
    synchronous [parse]: a schema maps an input to its output, or fails. *)

Module Zod.
Import Js.

(** [schema.parse(v)]: [Some out], or [None] where [parse] throws. *)
Definition schema := value → option value.

(** [z.string()]. *)
Definition z_string : schema :=
  λ v, match v with
       | VStr _ => Some v
       | _ => None
       end.


(** [z.number()]; [NaN] is refused. *)
Definition z_number : schema :=
  λ v, match v with
       | VNum n => if PrimFloat.is_nan n then None else Some v
       | _ => None
       end.

(** [inner.email()], for the engine's email grammar [is_email]. *)
Definition email (is_email : string → bool) (inner : schema) : schema :=
  λ v, r ← inner v;
       match r with
       | VStr s => if is_email s then Some r else None
       | _ => None
       end.

(** [z.literal(lit)]. *)
Definition z_literal (lit : value) : schema :=
  λ v, if strict_equals v lit then Some v else None.

(** [z.array(element)]. *)
Definition z_array (element : schema) : schema :=
  λ v, match v with
       | VArr l => VArr <$> mapM element l
       | _ => None
       end.

(** [z.union(options)]: the output of the first option that accepts. *)
Fixpoint z_union (options : list schema) : schema :=
  λ v, match options with
       | [] => None
       | o :: rest =>
           match o v with
           | Some r => Some r
           | None => z_union rest v
           end
       end.

(** [a.or(b)]. *)
Definition or (a b : schema) : schema := z_union [a; b].

(** [inner.transform(f)]. *)
Definition transform (inner : schema) (f : value → value) : schema :=
  λ v, f <$> inner v.

(** [a.pipe(b)]. *)
Definition pipe (a b : schema) : schema :=
  λ v, a v ≫= b.

(** [data[key]], for the keys of a shape: the own property, or
    [undefined]; a shape key that names a member inherited from
    [Object.prototype] is outside the model. *)
Definition prop (data : gmap string value) (key : string) : value :=
  default VUndefined (data !! key).

(** The value an object schema stores under [key]: the field's output,
    unless it is [undefined] and [key] is not in the input. *)
Definition z_object_field (data : gmap string value) (key : string) (field : schema)
    : option value :=
  r ← field (prop data key);
  match r with
  | VUndefined => if bool_decide (is_Some (data !! key)) then Some r else None
  | _ => Some r
  end.

(** [z.object(shape)]: every field of the shape is parsed on [data[key]];
    keys outside the shape are stripped. *)
Definition z_object (shape : gmap string schema) : schema :=
  λ v, match v with
       | VObj data =>
           if decide (map_Forall (λ key field, is_Some (field (prop data key))) shape)
           then Some (VObj (map_imap (z_object_field data) shape))
           else None
       | _ => None
       end.

(** [inner.optional()]: [undefined] is let through as it is. *)
Definition z_optional (inner : schema) : schema :=
  λ v, match v with
       | VUndefined => Some VUndefined
       | _ => inner v
       end.

(** [inner.refine(check)]: the output of [inner], kept when [check] holds
    of it. *)
Definition z_refine (inner : schema) (check : value → bool) : schema :=
  λ v, r ← inner v;
       if check r then Some r else None.

(** [inner.min(n)] on a string schema, for the whole number [n] the
    sources pass: the length in code units is at least [n]. *)
Definition z_min (n : nat) (inner : schema) : schema :=
  λ v, r ← inner v;
       match r with
       | VStr s => if bool_decide (n ≤ String.length s)%nat then Some r else None
       | _ => None
       end.

(** [inner.trim()] on a string schema: the checks that follow, and the
    output, see the trimmed string. *)
Definition z_trim (inner : schema) : schema :=
  λ v, r ← inner v;
       match r with
       | VStr s => Some (VStr (Js.trim s))
       | _ => None
       end.

(** [inner.url()], for the engine's URL grammar [is_url]. *)
Definition z_url (is_url : string → bool) (inner : schema) : schema :=
  λ v, r ← inner v;
       match r with
       | VStr s => if is_url s then Some r else None
       | _ => None
       end.

(** A [ZodObject], of which the sources read [.shape]. *)
Record ZodObject := { shape : gmap string schema }.

End Zod.

(** ** Response envelope ([schemas.ts]) *)

Module Schemas.
Import Js Zod.

(** [SuccessResponseSchema(dataSchema)]. *)
Definition SuccessResponseSchema (dataSchema : ZodObject) : schema :=
  z_union
    [ z_object (spread_obj (shape dataSchema)
                  (<[ "success" := z_literal (VBool true) ]> ∅));
      z_object (<[ "error" := z_string ]>
                  (<[ "success" := z_literal (VBool false) ]> ∅)) ].

(** [SimpleSuccessSchema]. *)
Definition SimpleSuccessSchema : schema :=
  z_union
    [ z_object (<[ "success" := z_literal (VBool true) ]> ∅);
      z_object (<[ "error" := z_string ]>
                  (<[ "success" := z_literal (VBool false) ]> ∅)) ].

End Schemas.

(** ** Validators ([validators.ts]) *)

Module validators.
Import Js Zod.

Section WithEmailGrammar.
(** The engine's email grammar. *)
Variable is_email : string → bool.

(** [validators.email()]. *)
Definition email : schema := Zod.email is_email z_string.

(** [(s) => s.split(',').map((e) => e.trim())], applied to the string the
    preceding [z.string()] let through. *)
Definition split_and_trim (v : value) : value :=
  match v with
  | VStr s => VArr (VStr <$> (trim <$> split "," s))
  | _ => VUndefined
  end.

(** [validators.emailList()]. *)
Definition emailList : schema :=
  or (z_array (Zod.email is_email z_string))
     (pipe (transform z_string split_and_trim)
           (z_array (Zod.email is_email z_string))).

End WithEmailGrammar.

(** [key.startsWith(prefix)] on a value a string schema let through. *)
Definition startsWith (prefix : string) (v : value) : bool :=
  match v with
  | VStr s => String.prefix prefix s
  | _ => false
  end.

Section WithUrlGrammar.
(** The engine's URL grammar. *)
Variable is_url : string → bool.

(** [validators.url()]. *)
Definition url : schema := z_url is_url z_string.

(** [validators.httpsUrl()]. *)
Definition httpsUrl : schema :=
  z_refine (z_url is_url z_string) (startsWith "https://").

End WithUrlGrammar.

(** [validators.apiKey(prefix?)]; [prefix ? ... : base] tests the
    truthiness of [prefix]. *)
Definition apiKey (prefix : option string) : schema :=
  let base := z_min 10 z_string in
  if to_boolean (of_option VStr prefix)
  then z_refine base (startsWith (default "" prefix))
  else base.

(** [validators.nonEmptyString()]. *)
Definition nonEmptyString : schema := z_min 1 z_string.

(** [(val) => (val === '' ? undefined : val)]. *)
Definition empty_to_undefined (val : value) : value :=
  if strict_equals val (VStr "") then VUndefined else val.

(** [validators.optionalString()]. *)
Definition optionalString : schema :=
  transform (z_optional z_string) empty_to_undefined.

(** [validators.trimmedString()]. *)
Definition trimmedString : schema := z_min 1 (z_trim z_string).

End validators.

(** ** Reference inputs

    Concrete hosts, contexts and request bodies on which the properties
    below are exercised. *)

Module Samples.
Import Js Errors Types Context Zod.

Definition host0 : Host :=
  {| loaded_at := 1700000000000%float;
     clock := 1704067200000%float;
     uuid_source := λ n, "uuid-" +:+ pretty n;
     uuid_drawn := 0 |}.

(** A context holding the given secrets. *)
Definition context_with (s : gmap string string) : ModuleContext :=
  {| userId := "user_123";
     conversationId := None;
     displayName := None;
     timestamp := 1704067200000%float;
     requestId := "req_123";
     secrets := s |}.

(** A [tools/call] request carrying the given context. *)
Definition body_with (c : option PartialModuleContext) : RequestBodyWithContext :=
  {| id := inr 1%float; method := "tools/call"; params := None; context := c |}.

(** [context: {}]. *)
Definition empty_partial : PartialModuleContext :=
  {| p_userId := None; p_conversationId := None; p_displayName := None;
     p_timestamp := None; p_requestId := None; p_secrets := None |}.

(** [context: { userId: "", timestamp: 0 }]. *)
Definition falsy_partial : PartialModuleContext :=
  {| p_userId := Some ""; p_conversationId := None; p_displayName := None;
     p_timestamp := Some 0%float; p_requestId := None; p_secrets := None |}.

(** [z.object({ x: z.number() })]. *)
Definition payload_x : ZodObject :=
  {| shape := <[ "x" := z_number ]> ∅ |}.


(** [a@example.com], then a tab and a space, [b@example.com] and two
    spaces, then [c@example.com] between spaces. *)
Definition padded_addresses : list segment :=
  [ {| pad_left := ""; core := "a@example.com"; pad_right := "" |};
    {| pad_left := String "009"%char " "; core := "b@example.com"; pad_right := "  " |};
    {| pad_left := " "; core := "c@example.com"; pad_right := " " |} ].

(** A stand-in email grammar: some character, an [@], some character. *)
Fixpoint at_inside (seen : bool) (s : string) : bool :=
  match s with
  | EmptyString => false
  | String c EmptyString => false
  | String c rest =>
      if bool_decide (c = "@"%char) then seen
      else at_inside true rest
  end.

End Samples.

(** * Properties *)

(** ** String primitives *)

Section JsFacts.
Import Js.

Lemma split_not_nil (sep : ascii) (s : string) : split sep s ≠ [].
Proof.
  destruct s as [|c s]; simpl; [done|].
  case_bool_decide; [done|]. by destruct (split sep s).
Qed.

(** Joining the segments with the separator gives the string back. *)
Lemma split_concat (sep : ascii) (s : string) :
  String.concat (String sep EmptyString) (split sep s) = s.
Proof.
  induction s as [|c s IH]; [reflexivity|].
  pose proof (split_not_nil sep s) as Hne.
  cbn [split]. case_bool_decide as Hc.
  - subst c. destruct (split sep s) as [|seg rest]; [done|].
    cbn [String.concat]. simpl. by rewrite <- IH.
  - destruct (split sep s) as [|seg rest]; [done|].
    destruct rest as [|seg' rest]; simpl in *; by rewrite <- IH.
Qed.

(** What [trimStart] returns does not start with white space. *)
Lemma trimStart_head (s : string) :
  match trimStart s with
  | String c _ => is_white_space c = false
  | EmptyString => True
  end.
Proof.
  induction s as [|c s IH]; simpl; [done|].
  destruct (is_white_space c) eqn:Hc; [exact IH | exact Hc].
Qed.

(** [trimEnd] drops a final white space character and keeps a final
    character that is not white space, with all that precedes it. *)
Lemma trimEnd_snoc (s : string) (c : ascii) :
  trimEnd (s +:+ String c EmptyString)
  = if is_white_space c then trimEnd s else s +:+ String c EmptyString.
Proof.
  induction s as [|a s IH]; simpl.
  - by destruct (is_white_space c).
  - change (String.append s (String c EmptyString)) with (s +:+ String c EmptyString).
    rewrite IH. destruct (is_white_space c); [reflexivity|].
    by destruct s.
Qed.

End JsFacts.

(** ** Error taxonomy *)

Section ErrorsFacts.
Import Js Errors.

Lemma number_truthy_iff (n : number) :
  number_truthy n = true ↔ PrimFloat.is_zero n = false ∧ PrimFloat.is_nan n = false.
Proof.
  unfold number_truthy.
  destruct (PrimFloat.is_zero n), (PrimFloat.is_nan n); simpl; intuition congruence.
Qed.

Lemma metadata_new_ModuleError c msg md :
  metadata (new_ModuleError c msg md) = md.
Proof. reflexivity. Qed.

Lemma toJSON_unfold (this : ModuleError) :
  toJSON this =
    match metadata this with
    | Some m => <[ "metadata" := VObj m ]> (envelope_base this)
    | None => envelope_base this
    end.
Proof.
  unfold toJSON, js_and.
  destruct (metadata this) as [m|]; simpl; [|done].
  unfold spread_obj. by rewrite <- insert_union_singleton_l.
Qed.

End ErrorsFacts.

Section ErrorsClaims.
Import Js Errors.

(** C5.  For every structured error, [toJSON] yields exactly
    [{success: false, error: message, code}], with a [metadata] property if
    and only if metadata was given to the constructor; the property then
    holds the very metadata given, and is left out (not [null], not
    [undefined]) otherwise. *)
Theorem toJSON_metadata_iff_provided (c : ErrorCode) (msg : string) (md : option Metadata) :
  let e := new_ModuleError c msg md in
  toJSON e !! "success" = Some (VBool false)
  ∧ toJSON e !! "error" = Some (VStr msg)
  ∧ toJSON e !! "code" = Some (VNum (ErrorCode_value c))
  ∧ (is_Some (toJSON e !! "metadata") ↔ is_Some md)
  ∧ toJSON e !! "metadata" = VObj <$> md
  ∧ dom (toJSON e)
    = (if md is Some _ then {[ "success"; "error"; "code"; "metadata" ]}
       else {[ "success"; "error"; "code" ]})
  ∧ (∀ this : ModuleError,
       toJSON this =
         match metadata this with
         | Some m => <[ "metadata" := VObj m ]> (envelope_base this)
         | None => envelope_base this
         end).
Proof.
  intros e. subst e.
  rewrite toJSON_unfold, metadata_new_ModuleError.
  destruct md as [m|]; unfold envelope_base;
    rewrite ?dom_insert_L, ?dom_empty_L;
    repeat split;
    try done; try (by eexists); try apply toJSON_unfold;
    try (by intros [? ?]); set_solver.
Qed.

(** C3, as amended.  For every operation and every [timeoutMs] other than
    [0], [-0] and [NaN], [timeout] gives code [TIMEOUT], the message
    [Operation "{operation}" timed out] and metadata [{timeoutMs}]; with
    [timeoutMs] left out the metadata is absent.  Likewise [rateLimitError]
    gives [RATE_LIMIT_EXCEEDED], [Rate limit exceeded] and [{retryAfter}]
    for such a [retryAfter], and no metadata when it is left out.  A given
    [0], [-0] or [NaN] is treated as left out by both. *)
Theorem timeout_rateLimitError_metadata (operation : string) (n : number)
    (Hz : PrimFloat.is_zero n = false) (Hn : PrimFloat.is_nan n = false) :
  timeout operation (Some n)
  = new_ModuleError TIMEOUT ("Operation " +:+ dq +:+ operation +:+ dq +:+ " timed out")
      (Some {[ "timeoutMs" := VNum n ]})
  ∧ timeout operation None
    = new_ModuleError TIMEOUT ("Operation " +:+ dq +:+ operation +:+ dq +:+ " timed out") None
  ∧ rateLimitError (Some n)
    = new_ModuleError RATE_LIMIT_EXCEEDED "Rate limit exceeded"
        (Some {[ "retryAfter" := VNum n ]})
  ∧ rateLimitError None
    = new_ModuleError RATE_LIMIT_EXCEEDED "Rate limit exceeded" None
  ∧ (∀ z : number,
       PrimFloat.is_zero z = true ∨ PrimFloat.is_nan z = true →
       metadata (timeout operation (Some z)) = None
       ∧ metadata (rateLimitError (Some z)) = None).
Proof.
  assert (Ht : number_truthy n = true) by (by apply number_truthy_iff).
  unfold timeout, rateLimitError. simpl. rewrite Ht.
  do 4 (split; [reflexivity|]).
  intros z Hfalsy.
  assert (Hf : number_truthy z = false).
  { unfold number_truthy. destruct Hfalsy as [-> | ->]; [reflexivity|].
    by rewrite orb_true_r. }
  rewrite Hf. split; reflexivity.
Qed.

Lemma timeout_rateLimitError_metadata_witness :
  metadata (timeout "API call" (Some 30000%float))
  = Some {[ "timeoutMs" := VNum 30000%float ]}
  ∧ metadata (rateLimitError (Some 60%float))
    = Some {[ "retryAfter" := VNum 60%float ]}.
Proof.
  pose proof (timeout_rateLimitError_metadata "API call" 30000%float eq_refl eq_refl)
    as (Ht & _).
  pose proof (timeout_rateLimitError_metadata "" 60%float eq_refl eq_refl)
    as (_ & _ & Hr & _).
  split.
  - exact (f_equal metadata Ht).
  - exact (f_equal metadata Hr).
Defined.

(** C3 as stated fails at [0]: a given [timeoutMs] of [0] leaves the
    metadata absent, and so does a given [retryAfter] of [0]. *)
Lemma timeout_zero_drops_metadata :
  metadata (timeout "API call" (Some 0%float)) = None
  ∧ metadata (timeout "API call" (Some 0%float)) ≠ Some {[ "timeoutMs" := VNum 0%float ]}
  ∧ metadata (rateLimitError (Some 0%float)) = None
  ∧ metadata (rateLimitError (Some 0%float)) ≠ Some {[ "retryAfter" := VNum 0%float ]}.
Proof. repeat split; done. Qed.

End ErrorsClaims.

(** ** Context resolver *)

Section ContextFacts.
Import Js Errors Types Context.

(** The message of the [missingSecret] factory is the template
    [getRequiredSecret] throws with. *)
Lemma message_missingSecret (secretName : string) :
  message (missingSecret secretName)
  = "Required secret " +:+ dq +:+ secretName +:+ dq +:+ " is not configured".
Proof. reflexivity. Qed.


Lemma get_property_inherited {A} (o : gmap string A) (name : string) :
  o !! name = None → name ∈ Object_prototype_names →
  get_property o name = InheritedMember name.
Proof. unfold get_property. intros -> Hin. by rewrite bool_decide_eq_true_2. Qed.

Lemma get_property_none {A} (o : gmap string A) (name : string) :
  o !! name = None → name ∉ Object_prototype_names →
  get_property o name = NoProperty.
Proof. unfold get_property. intros -> Hin. by rewrite bool_decide_eq_false_2. Qed.

(** [getRequiredSecret] by the truthiness of the value read. *)
Lemma getRequiredSecret_unfold (context : ModuleContext) (secretName : string) :
  getRequiredSecret context secretName =
    (if property_truthy (get_property (secrets context) secretName)
     then Normal (get_property (secrets context) secretName)
     else Throw (PlainError (message (missingSecret secretName))),
     context).
Proof.
  unfold getRequiredSecret, read_secret, bind, reads.
  by destruct (property_truthy _).
Qed.

Lemma getOptionalSecret_unfold (context : ModuleContext) (secretName : string) :
  getOptionalSecret context secretName
  = (Normal (get_property (secrets context) secretName), context).
Proof. reflexivity. Qed.

(** [extractContext] on a body without context. *)
Lemma extractContext_no_context (body : RequestBodyWithContext) (h : Host) :
  context body = None →
  extractContext body h =
    (Normal {| userId := "anonymous";
               conversationId := None;
               displayName := Some "Anonymous User";
               timestamp := clock h;
               requestId := uuid_source h (uuid_drawn h);
               secrets := ∅ |},
     drawn_one h).
Proof. unfold extractContext. intros ->. reflexivity. Qed.

(** [extractContext] on a body with a context, field by field. *)
Lemma extractContext_some_context (body : RequestBodyWithContext)
    (ctx : PartialModuleContext) (h : Host) :
  context body = Some ctx →
  extractContext body h =
    (Normal {| userId := default "anonymous" (p_userId ctx);
               conversationId := p_conversationId ctx;
               displayName := Some (default "Anonymous User" (p_displayName ctx));
               timestamp := default (clock h) (p_timestamp ctx);
               requestId := default (uuid_source h (uuid_drawn h)) (p_requestId ctx);
               secrets := default ∅ (p_secrets ctx) |},
     if p_requestId ctx is Some _ then h else drawn_one h).
Proof.
  unfold extractContext. intros ->.
  destruct ctx as [u cv d t r s].
  destruct u, d, t, r, s; reflexivity.
Qed.

End ContextFacts.

Section ContextClaims.
Import Js Errors Types Context Samples.

(** C1 (evaluation of the code).  For every context and every secret name
    whose value in [context.secrets] is absent or the empty string,
    [getRequiredSecret] throws a plain [Error] whose message is the one of
    the [missingSecret] factory; what it throws is not a [ModuleError],
    hence carries neither the code [MISSING_SECRET] nor metadata, and
    differs from what [missingSecret] builds. *)
Theorem getRequiredSecret_throws_plain_Error (context : ModuleContext) (secretName : string)
    (Hmissing : get_property (secrets context) secretName = NoProperty
                ∨ get_property (secrets context) secretName = OwnProperty "") :
  fst (getRequiredSecret context secretName)
  = Throw (PlainError (message (missingSecret secretName)))
  ∧ thrown_message (PlainError (message (missingSecret secretName)))
    = "Required secret " +:+ dq +:+ secretName +:+ dq +:+ " is not configured"
  ∧ instanceof_ModuleError (PlainError (message (missingSecret secretName))) = false
  ∧ fst (getRequiredSecret context secretName)
    ≠ Throw (OfModuleError (missingSecret secretName)).
Proof.
  rewrite getRequiredSecret_unfold.
  destruct Hmissing as [-> | ->]; simpl; repeat split; discriminate.
Qed.

Lemma getRequiredSecret_throws_plain_Error_witness :
  fst (getRequiredSecret (context_with ∅) "API_KEY")
  = Throw (PlainError (message (missingSecret "API_KEY")))
  ∧ fst (getRequiredSecret (context_with {[ "API_KEY" := "" ]}) "API_KEY")
    ≠ Throw (OfModuleError (missingSecret "API_KEY")).
Proof.
  split.
  - apply (getRequiredSecret_throws_plain_Error (context_with ∅) "API_KEY").
    left. reflexivity.
  - apply (getRequiredSecret_throws_plain_Error
             (context_with {[ "API_KEY" := "" ]}) "API_KEY").
    right. reflexivity.
Defined.







(** C2, as amended.  For every request body whose context is present but
    supplies neither [conversationId] nor [displayName], [extractContext]
    returns a context whose [conversationId] is absent and whose
    [displayName] is the default ['Anonymous User']. *)
Theorem extractContext_unsupplied_names (body : RequestBodyWithContext)
    (ctx : PartialModuleContext) (h : Host)
    (Hctx : context body = Some ctx)
    (Hconv : p_conversationId ctx = None)
    (Hname : p_displayName ctx = None) :
  ∃ c h', extractContext body h = (Normal c, h')
          ∧ conversationId c = None
          ∧ displayName c = displayName (DEFAULT_MODULE_CONTEXT (loaded_at h))
          ∧ displayName c = Some "Anonymous User".
Proof.
  eexists _, _. split; [by apply extractContext_some_context|].
  simpl. rewrite Hconv, Hname. done.
Qed.

Lemma extractContext_unsupplied_names_witness :
  ∃ c h', extractContext (body_with (Some empty_partial)) host0 = (Normal c, h')
          ∧ conversationId c = None
          ∧ displayName c = Some "Anonymous User".
Proof.
  destruct (extractContext_unsupplied_names (body_with (Some empty_partial))
              empty_partial host0 eq_refl eq_refl eq_refl)
    as (c & h' & He & Hc & _ & Hd).
  exists c, h'. auto.
Defined.

(** C2 as stated fails: with [context: {}] the returned [displayName] is
    not absent. *)
Lemma extractContext_displayName_not_absent :
  ∃ c, fst (extractContext (body_with (Some empty_partial)) host0) = Normal c
       ∧ displayName c = Some "Anonymous User"
       ∧ ¬ (conversationId c = None ∧ displayName c = None).
Proof.
  eexists. split; [reflexivity|]. simpl. split; [done|]. intros [_ ?]. done.
Qed.

(** C6.  With no context at all, [extractContext] returns every default,
    the time read from the clock during the call and the identifier drawn
    from the generator during the call (the next call draws the following
    one); neither comes from the shared default.  With [{userId: u}] alone
    it returns [u], the default display name, no conversation id, no
    secrets, and again the clock's time and a newly drawn identifier.  In
    general each field of a supplied context is defaulted on its own.  When
    the generator never repeats itself, two calls in a row return
    different identifiers. *)
Theorem extractContext_defaults (i : string + number) (m : string)
    (p : option (gmap string value)) (h : Host) :
  extractContext {| id := i; method := m; params := p; context := None |} h
  = (Normal {| userId := "anonymous";
               conversationId := None;
               displayName := Some "Anonymous User";
               timestamp := clock h;
               requestId := uuid_source h (uuid_drawn h);
               secrets := ∅ |},
     drawn_one h)
  ∧ (∀ u : string,
       extractContext
         {| id := i; method := m; params := p;
            context := Some {| p_userId := Some u; p_conversationId := None;
                               p_displayName := None; p_timestamp := None;
                               p_requestId := None; p_secrets := None |} |} h
       = (Normal {| userId := u;
                    conversationId := None;
                    displayName := Some "Anonymous User";
                    timestamp := clock h;
                    requestId := uuid_source h (uuid_drawn h);
                    secrets := ∅ |},
          drawn_one h))
  ∧ (∀ ctx : PartialModuleContext,
       extractContext {| id := i; method := m; params := p; context := Some ctx |} h
       = (Normal {| userId := default "anonymous" (p_userId ctx);
                    conversationId := p_conversationId ctx;
                    displayName := Some (default "Anonymous User" (p_displayName ctx));
                    timestamp := default (clock h) (p_timestamp ctx);
                    requestId := default (uuid_source h (uuid_drawn h)) (p_requestId ctx);
                    secrets := default ∅ (p_secrets ctx) |},
          if p_requestId ctx is Some _ then h else drawn_one h))
  ∧ uuid_drawn (drawn_one h) = S (uuid_drawn h)
  ∧ ((∀ j k, uuid_source h j = uuid_source h k → j = k) →
     ∀ c1 h1 c2 h2,
       extractContext {| id := i; method := m; params := p; context := None |} h
       = (Normal c1, h1) →
       extractContext {| id := i; method := m; params := p; context := None |} h1
       = (Normal c2, h2) →
       requestId c1 ≠ requestId c2).
Proof.
  split; [by apply extractContext_no_context|].
  split; [intros u; reflexivity|].
  split; [intros ctx; by apply extractContext_some_context|].
  split; [reflexivity|].
  intros Hinj c1 h1 c2 h2 H1 H2.
  rewrite extractContext_no_context in H1 by reflexivity.
  injection H1 as <- <-.
  rewrite extractContext_no_context in H2 by reflexivity.
  injection H2 as <- <-. simpl.
  intros Heq. apply Hinj in Heq. lia.
Qed.

Lemma extractContext_defaults_witness :
  ∃ c1 h1 c2 h2,
    extractContext (body_with None) host0 = (Normal c1, h1)
    ∧ extractContext (body_with None) h1 = (Normal c2, h2)
    ∧ userId c1 = "anonymous"
    ∧ timestamp c1 = clock host0
    ∧ requestId c1 ≠ requestId c2.
Proof.
  pose proof (extractContext_defaults (inr 1%float) "tools/call" None host0)
    as (Hnone & _ & _ & _ & Hfresh).
  eexists _, _, _, _.
  split; [exact Hnone|].
  split; [reflexivity|].
  split; [reflexivity|].
  split; [reflexivity|].
  eapply Hfresh; [|exact Hnone|reflexivity].
  intros j k Heq. simpl in Heq. injection Heq as Heq.
  exact (pretty_nat_inj j k Heq).
Defined.

(** C9.  The defaulting of [extractContext] is on [undefined] only: every
    field a present context supplies is returned as supplied, whatever its
    truthiness; so a supplied [userId] of [""] stays [""] and a supplied
    [timestamp] of [0] stays [0]. *)
Theorem extractContext_nullish_only (body : RequestBodyWithContext)
    (ctx : PartialModuleContext) (h : Host)
    (Hctx : context body = Some ctx) :
  ∃ c h', extractContext body h = (Normal c, h')
          ∧ (∀ u, p_userId ctx = Some u → userId c = u)
          ∧ conversationId c = p_conversationId ctx
          ∧ (∀ d, p_displayName ctx = Some d → displayName c = Some d)
          ∧ (∀ t, p_timestamp ctx = Some t → timestamp c = t)
          ∧ (∀ r, p_requestId ctx = Some r → requestId c = r)
          ∧ (∀ s, p_secrets ctx = Some s → secrets c = s).
Proof.
  eexists _, _. split; [by apply extractContext_some_context|].
  simpl. repeat split; try done; by intros ? ->.
Qed.

Lemma extractContext_nullish_only_witness :
  ∃ c h', extractContext (body_with (Some falsy_partial)) host0 = (Normal c, h')
          ∧ userId c = ""
          ∧ timestamp c = 0%float.
Proof.
  destruct (extractContext_nullish_only (body_with (Some falsy_partial))
              falsy_partial host0 eq_refl)
    as (c & h' & He & Hu & _ & _ & Ht & _).
  exists c, h'. split; [exact He|].
  split; [apply Hu | apply Ht]; reflexivity.
Defined.

End ContextClaims.

(** ** Validators *)

Section ValidatorsFacts.
Import Js Zod validators.
Variable is_email : string → bool.

(** An array schema over email strings accepts exactly the arrays whose
    elements are all strings of the grammar, and returns them unchanged. *)
Lemma mapM_email_values (l : list value) :
  mapM (Zod.email is_email z_string) l =
    if forallb (λ v, match v with VStr s => is_email s | _ => false end) l
    then Some l else None.
Proof.
  induction l as [|v l IH]; [reflexivity|].
  cbn [mapM forallb]. rewrite IH.
  destruct v as [| |b|n|s|vs|o]; try reflexivity.
  unfold Zod.email, z_string; simpl.
  destruct (is_email s); simpl; [|reflexivity].
  by destruct (forallb _ l).
Qed.

Lemma forallb_email_strings (l : list string) :
  forallb (λ v, match v with VStr s => is_email s | _ => false end) (VStr <$> l)
  = forallb is_email l.
Proof. induction l as [|s l IH]; [reflexivity|]. csimpl. by rewrite IH. Qed.

End ValidatorsFacts.

(** ** [split] and [trim] on padded segments *)

Section SegmentFacts.
Import Js.

Lemma every_app (p : ascii → bool) (a b : string) :
  every p (a +:+ b) = every p a && every p b.
Proof.
  induction a as [|c a IH]; [reflexivity|].
  simpl. change (String.append a b) with (a +:+ b). rewrite IH. by destruct (p c).
Qed.

Lemma every_impl (p q : ascii → bool) (s : string) :
  (∀ c, p c = true → q c = true) → every p s = true → every q s = true.
Proof.
  intros Hpq. induction s as [|c s IH]; [done|]. simpl.
  intros [Hc Hs]%andb_true_iff. by rewrite (Hpq c Hc), (IH Hs).
Qed.

Lemma white_space_not_comma (c : ascii) : is_white_space c = true → not_comma c = true.
Proof.
  unfold not_comma. case_bool_decide as Hc; [|done]. subst c. discriminate.
Qed.

Lemma split_without_comma (x : string) :
  every not_comma x = true → split "," x = [x].
Proof.
  induction x as [|c x IH]; [reflexivity|]. simpl.
  intros [Hc Hx]%andb_true_iff. unfold not_comma in Hc.
  case_bool_decide; [discriminate Hc|]. by rewrite (IH Hx).
Qed.

Lemma split_at_comma (x rest : string) :
  every not_comma x = true →
  split "," (x +:+ String "," rest) = x :: split "," rest.
Proof.
  induction x as [|c x IH]; [reflexivity|]. simpl.
  intros [Hc Hx]%andb_true_iff. unfold not_comma in Hc.
  case_bool_decide; [discriminate Hc|].
  change (String.append x (String "," rest)) with (x +:+ String "," rest).
  by rewrite (IH Hx).
Qed.

(** Splitting what was joined with commas gives the segments back, when
    none of them holds a comma. *)
Lemma split_joined (xs : list string) :
  xs ≠ [] → Forall (λ x, every not_comma x = true) xs →
  split "," (String.concat "," xs) = xs.
Proof.
  induction xs as [|x xs IH]; [done|]. intros _ Hall.
  apply Forall_cons in Hall as [Hx Hxs].
  destruct xs as [|y ys].
  - simpl. by apply split_without_comma.
  - change (String.concat "," (x :: y :: ys))
      with (x +:+ String "," (String.concat "," (y :: ys))).
    rewrite (split_at_comma _ _ Hx). f_equal. by apply IH.
Qed.

Lemma split_segments_without_comma (s : string) :
  Forall (λ x, every not_comma x = true) (split "," s).
Proof.
  induction s as [|c s IH]; [by repeat constructor|]. simpl.
  case_bool_decide as Hc.
  - by constructor.
  - assert (Hnc : not_comma c = true)
      by (unfold not_comma; by rewrite bool_decide_eq_false_2).
    destruct (split "," s) as [|seg rest].
    + constructor; [simpl; by rewrite Hnc | constructor].
    + apply Forall_cons in IH as [Hseg Hrest]. constructor; [|done].
      simpl. by rewrite Hnc, Hseg.
Qed.

Lemma trimStart_padding (l t : string) :
  every is_white_space l = true → trimStart (l +:+ t) = trimStart t.
Proof.
  induction l as [|c l IH]; [reflexivity|]. simpl.
  intros [Hc Hl]%andb_true_iff. rewrite Hc. by apply IH.
Qed.

Lemma trimEnd_white_space (r : string) :
  every is_white_space r = true → trimEnd r = "".
Proof.
  induction r as [|c r IH]; [reflexivity|]. simpl.
  intros [Hc Hr]%andb_true_iff. by rewrite (IH Hr), Hc.
Qed.

Lemma trimEnd_padding (t r : string) :
  every is_white_space r = true → trimEnd (t +:+ r) = trimEnd t.
Proof.
  intros Hr. induction t as [|c t IH]; [by apply trimEnd_white_space|].
  simpl. change (String.append t r) with (t +:+ r). by rewrite IH.
Qed.

Lemma trimEnd_clean (c : string) :
  from_option not_white_space true (last_unit c) = true → trimEnd c = c.
Proof.
  induction c as [|a c IH]; [reflexivity|].
  destruct c as [|b c].
  - simpl. unfold not_white_space. by destruct (is_white_space a).
  - intros Hlast. change (last_unit (String a (String b c))) with
      (last_unit (String b c)) in Hlast.
    change (trimEnd (String a (String b c))) with
      (match trimEnd (String b c) with
       | EmptyString => if is_white_space a then EmptyString else String a EmptyString
       | t => String a t
       end).
    by rewrite (IH Hlast).
Qed.

(** Trimming a padded text gives the text. *)
Lemma trim_written (g : segment) :
  well_padded g = true → trim (written g) = core g.
Proof.
  unfold well_padded, written. intros H.
  apply andb_true_iff in H as [H Hclean].
  apply andb_true_iff in H as [H _].
  apply andb_true_iff in H as [Hl Hr].
  apply andb_true_iff in Hclean as [Hfirst Hlast].
  unfold trim. rewrite (trimStart_padding _ _ Hl).
  destruct (core g) as [|a c] eqn:Hcore.
  - change ("" +:+ pad_right g) with (pad_right g).
    assert (Hws : trimStart (pad_right g) = "").
    { clear -Hr. induction (pad_right g) as [|c r IH]; [reflexivity|].
      simpl in *. apply andb_true_iff in Hr as [Hc Hr]. rewrite Hc. by apply IH. }
    by rewrite Hws.
  - simpl in Hfirst. unfold not_white_space in Hfirst.
    change (String a c +:+ pad_right g) with (String a (c +:+ pad_right g)).
    cbn [trimStart]. destruct (is_white_space a); [discriminate Hfirst|].
    change (String a (c +:+ pad_right g)) with (String a c +:+ pad_right g).
    rewrite (trimEnd_padding _ _ Hr). by apply trimEnd_clean.
Qed.

Lemma written_without_comma (g : segment) :
  well_padded g = true → every not_comma (written g) = true.
Proof.
  unfold well_padded, written.
  intros [[[Hl Hr]%andb_true_iff Hc]%andb_true_iff _]%andb_true_iff.
  rewrite !every_app, Hc.
  rewrite (every_impl _ _ _ white_space_not_comma Hl).
  by rewrite (every_impl _ _ _ white_space_not_comma Hr).
Qed.

(** The trimmed segments of a list written with padding are the texts. *)
Lemma trimmed_segments (gs : list segment) :
  gs ≠ [] → Forall (λ g, well_padded g = true) gs →
  trim <$> split "," (String.concat "," (written <$> gs)) = core <$> gs.
Proof.
  intros Hne Hall. rewrite split_joined.
  - clear Hne. induction Hall as [|g gs Hg _ IH]; [reflexivity|].
    csimpl. by rewrite (trim_written g Hg), IH.
  - by destruct gs.
  - clear Hne. induction Hall as [|g gs Hg _ IH]; constructor; [|done].
    by apply written_without_comma.
Qed.

Lemma trimStart_decompose (s : string) :
  ∃ l, s = l +:+ trimStart s ∧ every is_white_space l = true.
Proof.
  induction s as [|c s (l & Hs & Hl)]; [by exists ""|]. simpl.
  destruct (is_white_space c) eqn:Hc.
  - exists (String c l). split; [exact (f_equal (String c) Hs) | simpl; by rewrite Hc].
  - by exists "".
Qed.

Lemma trimEnd_decompose (t : string) :
  ∃ r, t = trimEnd t +:+ r ∧ every is_white_space r = true.
Proof.
  induction t as [|c t (r & Ht & Hr)]; [by exists ""|]. simpl.
  destruct (trimEnd t) as [|a u].
  - simpl in Ht. subst t. destruct (is_white_space c) eqn:Hc.
    + exists (String c r). split; [reflexivity | simpl; by rewrite Hc].
    + by exists r.
  - exists r. split; [exact (f_equal (String c) Ht) | done].
Qed.

Lemma last_unit_trimEnd (t : string) :
  from_option not_white_space true (last_unit (trimEnd t)) = true.
Proof.
  induction t as [|c t IH]; [reflexivity|]. simpl.
  destruct (trimEnd t) as [|a u].
  - unfold not_white_space. by destruct (is_white_space c) eqn:Hc; simpl; rewrite ?Hc.
  - exact IH.
Qed.

(** Every string is a padded text: its trimmed form between white
    space. *)
Lemma trim_decompose (s : string) :
  ∃ l r, s = l +:+ trim s +:+ r
         ∧ every is_white_space l = true
         ∧ every is_white_space r = true
         ∧ no_surrounding_white_space (trim s) = true.
Proof.
  destruct (trimStart_decompose s) as (l & Hs & Hl).
  destruct (trimEnd_decompose (trimStart s)) as (r & Ht & Hr).
  exists l, r. split; [|split; [done|split; [done|]]].
  - unfold trim. by rewrite <- Ht.
  - unfold no_surrounding_white_space, trim.
    rewrite last_unit_trimEnd, andb_true_r.
    pose proof (trimStart_head s) as Hh.
    destruct (trimStart s) as [|c t]; [reflexivity|].
    simpl. destruct (trimEnd t); rewrite ?Hh; simpl;
      unfold not_white_space; by rewrite Hh.
Qed.

(** Every string is a comma-separated list of padded texts. *)
Lemma padded_segments_exist (s : string) :
  ∃ gs, gs ≠ []
        ∧ Forall (λ g, well_padded g = true) gs
        ∧ s = String.concat "," (written <$> gs).
Proof.
  assert (Hlist : ∀ xs, Forall (λ x, every not_comma x = true) xs →
            ∃ gs, Forall (λ g, well_padded g = true) gs ∧ xs = written <$> gs).
  { induction 1 as [|x xs Hx _ (gs & Hgs & ->)]; [by exists []|].
    destruct (trim_decompose x) as (l & r & Hxlr & Hl & Hr & Hclean).
    exists ({| pad_left := l; core := trim x; pad_right := r |} :: gs).
    split; [|csimpl; unfold written; simpl; by rewrite <- Hxlr].
    constructor; [|done].
    unfold well_padded. simpl. rewrite Hl, Hr, Hclean. simpl.
    rewrite Hxlr, !every_app in Hx.
    apply andb_true_iff in Hx as [_ Hx]. apply andb_true_iff in Hx as [Hx _].
    by rewrite Hx. }
  destruct (Hlist _ (split_segments_without_comma s)) as (gs & Hgs & Hsplit).
  exists gs. split; [|split; [done|]].
  - intros ->. by destruct (split_not_nil "," s).
  - by rewrite <- Hsplit, split_concat.
Qed.

End SegmentFacts.

Section ValidatorsClaims.
Import Js Zod validators Samples.

(** C8.  Whatever the engine's email grammar: [emailList] accepts an array
    exactly when every element is a string of the grammar, and returns it
    as it is; it rejects any input that is neither an array nor a string.
    A string is a comma-separated list of texts, each written between white
    space (every string is, in at least one way): [emailList] accepts it
    exactly when every text, without its padding, is of the grammar, and
    then returns the array of the texts without their padding; so it
    rejects as soon as one text is outside the grammar.  In terms of the
    primitives: the texts are the trimmed segments of [split(',')].  So
    ["a@example.com, b@example.com"] becomes
    [["a@example.com", "b@example.com"]] when both addresses are of the
    grammar, and a list with a segment outside the grammar is rejected. *)
Theorem emailList_normalizes (is_email : string → bool) :
  (∀ l : list value,
     emailList is_email (VArr l) =
       if forallb (λ v, match v with VStr s => is_email s | _ => false end) l
       then Some (VArr l) else None)
  ∧ (∀ s : string,
       emailList is_email (VStr s) =
         if forallb is_email (trim <$> split "," s)
         then Some (VArr (VStr <$> (trim <$> split "," s))) else None)
  ∧ (∀ v, match v with
          | VArr _ | VStr _ => True
          | _ => emailList is_email v = None
          end)
  ∧ (is_email "a@example.com" = true → is_email "b@example.com" = true →
     emailList is_email (VStr "a@example.com, b@example.com")
     = Some (VArr [VStr "a@example.com"; VStr "b@example.com"]))
  ∧ (is_email "not-an-email" = false →
     emailList is_email (VStr "valid@example.com, not-an-email") = None)
  ∧ (∀ gs : list segment,
       gs ≠ [] → Forall (λ g, well_padded g = true) gs →
       emailList is_email (VStr (String.concat "," (written <$> gs)))
       = if forallb is_email (core <$> gs)
         then Some (VArr (VStr <$> (core <$> gs))) else None)
  ∧ (∀ (gs : list segment) (g : segment),
       Forall (λ g, well_padded g = true) gs → g ∈ gs → is_email (core g) = false →
       emailList is_email (VStr (String.concat "," (written <$> gs))) = None)
  ∧ (∀ s : string,
       ∃ gs, gs ≠ []
             ∧ Forall (λ g, well_padded g = true) gs
             ∧ s = String.concat "," (written <$> gs)).
Proof.
  assert (Harr : ∀ l : list value,
     emailList is_email (VArr l) =
       if forallb (λ v, match v with VStr s => is_email s | _ => false end) l
       then Some (VArr l) else None).
  { intros l. unfold emailList, or, z_union, z_array.
    rewrite mapM_email_values. by destruct (forallb _ l). }
  assert (Hstr : ∀ s : string,
     emailList is_email (VStr s) =
       if forallb is_email (trim <$> split "," s)
       then Some (VArr (VStr <$> (trim <$> split "," s))) else None).
  { intros s. unfold emailList, or, z_union, pipe, transform. simpl.
    rewrite mapM_email_values, forallb_email_strings.
    by destruct (forallb _ _). }
  assert (Hpad : ∀ gs : list segment,
     gs ≠ [] → Forall (λ g, well_padded g = true) gs →
     emailList is_email (VStr (String.concat "," (written <$> gs)))
     = if forallb is_email (core <$> gs)
       then Some (VArr (VStr <$> (core <$> gs))) else None).
  { intros gs Hne Hall. by rewrite Hstr, (trimmed_segments gs Hne Hall). }
  split; [exact Harr|]. split; [exact Hstr|].
  split; [|split; [|split; [|split; [exact Hpad|split]]]].
  - by intros [].
  - intros Ha Hb. rewrite Hstr.
    change (trim <$> split "," "a@example.com, b@example.com")
      with ["a@example.com"; "b@example.com"].
    cbn [forallb]. by rewrite Ha, Hb.
  - intros Hn. rewrite Hstr.
    change (trim <$> split "," "valid@example.com, not-an-email")
      with ["valid@example.com"; "not-an-email"].
    cbn [forallb]. rewrite Hn. destruct (is_email "valid@example.com"); reflexivity.
  - intros gs g Hall Hin Hg.
    assert (Hne : gs ≠ []) by (intros ->; by apply elem_of_nil in Hin).
    rewrite (Hpad gs Hne Hall).
    assert (Hfalse : forallb is_email (core <$> gs) = false).
    { clear -Hin Hg. induction Hin as [g gs|g g' gs _ IH]; csimpl.
      - by rewrite Hg.
      - rewrite (IH Hg). apply andb_false_r. }
    by rewrite Hfalse.
  - apply padded_segments_exist.
Qed.

Lemma emailList_normalizes_witness :
  emailList (at_inside false) (VStr "a@example.com, b@example.com")
  = Some (VArr [VStr "a@example.com"; VStr "b@example.com"])
  ∧ emailList (at_inside false) (VStr "valid@example.com, not-an-email") = None
  ∧ emailList (at_inside false)
      (VStr (String.concat "," (written <$> padded_addresses)))
    = Some (VArr [VStr "a@example.com"; VStr "b@example.com"; VStr "c@example.com"])
  ∧ emailList (at_inside false)
      (VStr (String.concat ","
               (written <$> {| pad_left := " "; core := "not-an-email"; pad_right := " " |}
                            :: padded_addresses)))
    = None.
Proof.
  pose proof (emailList_normalizes (at_inside false))
    as (_ & _ & _ & Hok & Hko & Hpad & Hreject & _).
  split; [apply Hok; reflexivity|].
  split; [apply Hko; reflexivity|].
  split.
  - rewrite Hpad; [reflexivity|discriminate|].
    repeat constructor.
  - apply (Hreject _ {| pad_left := " "; core := "not-an-email"; pad_right := " " |});
      [repeat constructor | apply list_elem_of_here | reflexivity].
Defined.

End ValidatorsClaims.

(** ** Response envelope *)

Section SchemasFacts.
Import Js Zod Schemas.

Lemma first_or_none {A} (o : option A) :
  match o with Some r => Some r | None => None end = o.
Proof. by destruct o. Qed.


Lemma z_object_field_fails (shape : gmap string schema) (data : gmap string value)
    (key : string) (field : schema) :
  shape !! key = Some field → field (prop data key) = None →
  z_object shape (VObj data) = None.
Proof.
  intros Hk Hf. unfold z_object. case_decide as H; [|done].
  apply (map_Forall_lookup_1 _ _ _ _ H) in Hk. rewrite Hf in Hk. by destruct Hk.
Qed.

(** The success branch of a payload that declares no [success] field. *)
Lemma success_shape (shape : gmap string schema) :
  shape !! "success" = None →
  spread_obj shape (<[ "success" := z_literal (VBool true) ]> ∅)
  = <[ "success" := z_literal (VBool true) ]> shape.
Proof.
  intros Hfresh. unfold spread_obj.
  by rewrite insert_empty, <- insert_union_singleton_r.
Qed.

Lemma z_literal_bool (b : bool) (data : gmap string value) :
  is_Some (z_literal (VBool b) (prop data "success"))
  ↔ data !! "success" = Some (VBool b).
Proof.
  unfold z_literal, prop.
  destruct (data !! "success") as [[| |b'|n|s|l|o]|]; simpl;
    try (split; [by intros [? ?] | done]).
  destruct b, b'; simpl; split; try done; try (by intros [? ?]); by eexists.
Qed.

(** The error branch on its own. *)
Lemma z_object_error_shape (data : gmap string value) :
  z_object (<[ "error" := z_string ]> (<[ "success" := z_literal (VBool false) ]> ∅))
    (VObj data)
  = match data !! "success", data !! "error" with
    | Some (VBool false), Some (VStr e) =>
        Some (VObj (<[ "error" := VStr e ]> (<[ "success" := VBool false ]> ∅)))
    | _, _ => None
    end.
Proof.
  unfold z_object. case_decide as H.
  - apply map_Forall_insert in H as [He H]; [|done].
    apply map_Forall_insert in H as [Hs _]; [|done].
    apply z_literal_bool in Hs.
    rewrite map_imap_insert, map_imap_insert, map_imap_empty.
    unfold z_object_field, prop in *. rewrite Hs in *.
    destruct (data !! "error") as [[| |b'|n|s|l|o]|]; simpl in *;
      first [done | by destruct He as [? ?]].
  - destruct (data !! "success") as [[| |[]|n|s|l|o]|] eqn:Hs; try done.
    destruct (data !! "error") as [[| |b'|n|s|l|o]|] eqn:He; try done.
    exfalso. apply H.
    apply map_Forall_insert; [done|]. split.
    + unfold prop. rewrite He. by eexists.
    + apply map_Forall_insert; [done|]. split; [|apply map_Forall_empty].
      by apply z_literal_bool.
Qed.

End SchemasFacts.

Section SchemasClaims.
Import Js Zod Schemas Samples.




End SchemasClaims.

(** * Further properties *)

(** ** String primitives, continued *)

Section JsMoreFacts.
Import Js.

Lemma trimStart_fixed (c : ascii) (s : string) :
  is_white_space c = false → trimStart (String c s) = String c s.
Proof. intros Hc. simpl. by rewrite Hc. Qed.

Lemma trimEnd_cons (c : ascii) (s : string) :
  is_white_space c = false → trimEnd (String c s) = String c (trimEnd s).
Proof. intros Hc. simpl. rewrite Hc. by destruct (trimEnd s). Qed.

Lemma trimEnd_idempotent (s : string) : trimEnd (trimEnd s) = trimEnd s.
Proof.
  induction s as [|c s IH]; [reflexivity|].
  simpl. destruct (trimEnd s) as [|a u] eqn:Hu.
  - destruct (is_white_space c) eqn:Hc; [reflexivity|].
    simpl. by rewrite Hc.
  - change (trimEnd (String c (String a u))) with
      (match trimEnd (String a u) with
       | EmptyString => if is_white_space c then EmptyString else String c EmptyString
       | t => String c t
       end).
    by rewrite IH.
Qed.

Lemma trimEnd_length (s : string) : (String.length (trimEnd s) ≤ String.length s)%nat.
Proof.
  induction s as [|c s IH]; simpl; [lia|].
  destruct (trimEnd s); [destruct (is_white_space c)|]; simpl in *; lia.
Qed.

Lemma length_snoc (s : string) (c : ascii) :
  String.length (s +:+ String c EmptyString) = S (String.length s).
Proof. induction s as [|a s IH]; simpl; [done|]. f_equal. exact IH. Qed.

(** Trimming twice is trimming once. *)
Lemma trim_idempotent (s : string) : trim (trim s) = trim s.
Proof.
  unfold trim. pose proof (trimStart_head s) as Hh.
  destruct (trimStart s) as [|c t]; [reflexivity|].
  rewrite (trimEnd_cons c t Hh), (trimStart_fixed c _ Hh).
  rewrite <- (trimEnd_cons c t Hh). apply trimEnd_idempotent.
Qed.

(** A trimmed string neither starts nor ends with white space. *)
Lemma trim_no_surrounding_white_space (s : string) :
  match trim s with
  | String c _ => is_white_space c = false
  | EmptyString => True
  end
  ∧ ∀ u c, trim s = u +:+ String c EmptyString → is_white_space c = false.
Proof.
  split.
  - unfold trim. pose proof (trimStart_head s) as Hh.
    destruct (trimStart s) as [|c t]; [done|].
    by rewrite (trimEnd_cons c t Hh).
  - intros u c Hs.
    assert (Hfix : trimEnd (trim s) = trim s) by apply trimEnd_idempotent.
    rewrite Hs, trimEnd_snoc in Hfix.
    destruct (is_white_space c); [|reflexivity].
    pose proof (trimEnd_length u) as Hlen.
    rewrite Hfix, length_snoc in Hlen. lia.
Qed.

(** Trimming gives the empty string exactly when nothing but white space
    is there to trim. *)
Lemma trim_empty_iff_trimStart_empty (s : string) :
  trim s = EmptyString ↔ trimStart s = EmptyString.
Proof.
  unfold trim. pose proof (trimStart_head s) as Hh.
  destruct (trimStart s) as [|c t]; [done|].
  rewrite (trimEnd_cons c t Hh). split; discriminate.
Qed.

End JsMoreFacts.

(** ** Error taxonomy, continued *)

(** Two different float literals are told apart by comparing them. *)
Ltac float_literals_differ H :=
  match type of H with
  | ?a = ?b =>
      let Hx := fresh in
      assert (Hx : PrimFloat.eqb a b = true) by (rewrite H at 1; reflexivity);
      vm_compute in Hx; discriminate Hx
  end.

Section ErrorsExtras.
Import Js Errors.

Lemma ErrorCode_value_inj (c1 c2 : ErrorCode) :
  ErrorCode_value c1 = ErrorCode_value c2 → c1 = c2.
Proof.
  destruct c1, c2; intros H; try reflexivity; exfalso; simpl in H;
    float_literals_differ H.
Qed.

(** X1.  No two members of [ErrorCode] share a numeric value, and every
    value lies in the thousand of its group: validation in 1xxx,
    authentication and secrets in 2xxx, external calls in 3xxx, rate
    limiting in 4xxx, internal errors in 5xxx. *)
Theorem ErrorCode_values_distinct_in_bands :
  (∀ c1 c2, ErrorCode_value c1 = ErrorCode_value c2 → c1 = c2)
  ∧ (∀ c,
       match c with
       | INVALID_INPUT | MISSING_REQUIRED_FIELD | INVALID_FORMAT =>
           PrimFloat.leb 1000 (ErrorCode_value c) && PrimFloat.ltb (ErrorCode_value c) 2000
       | MISSING_SECRET | INVALID_SECRET | UNAUTHORIZED =>
           PrimFloat.leb 2000 (ErrorCode_value c) && PrimFloat.ltb (ErrorCode_value c) 3000
       | API_ERROR | NETWORK_ERROR | TIMEOUT | NOT_FOUND =>
           PrimFloat.leb 3000 (ErrorCode_value c) && PrimFloat.ltb (ErrorCode_value c) 4000
       | RATE_LIMIT_EXCEEDED | QUOTA_EXCEEDED =>
           PrimFloat.leb 4000 (ErrorCode_value c) && PrimFloat.ltb (ErrorCode_value c) 5000
       | INTERNAL_ERROR | NOT_IMPLEMENTED | CONFIGURATION_ERROR =>
           PrimFloat.leb 5000 (ErrorCode_value c) && PrimFloat.ltb (ErrorCode_value c) 6000
       end = true).
Proof.
  split; [exact ErrorCode_value_inj|].
  intros c. destruct c; reflexivity.
Qed.

(** X2.  Serialization loses nothing: two errors with the same envelope
    have the same code, the same message and the same metadata (absent or
    present alike). *)
Theorem toJSON_injective (c1 c2 : ErrorCode) (m1 m2 : string) (md1 md2 : option Metadata)
    (Hsame : toJSON (new_ModuleError c1 m1 md1) = toJSON (new_ModuleError c2 m2 md2)) :
  c1 = c2 ∧ m1 = m2 ∧ md1 = md2.
Proof.
  rewrite !toJSON_unfold, !metadata_new_ModuleError in Hsame.
  assert (Hlook : ∀ k,
    (match md1 with
     | Some m => <[ "metadata" := VObj m ]> (envelope_base (new_ModuleError c1 m1 md1))
     | None => envelope_base (new_ModuleError c1 m1 md1)
     end) !! k
    = (match md2 with
       | Some m => <[ "metadata" := VObj m ]> (envelope_base (new_ModuleError c2 m2 md2))
       | None => envelope_base (new_ModuleError c2 m2 md2)
       end) !! k) by (intros k; by rewrite Hsame).
  pose proof (Hlook "code") as Hc.
  pose proof (Hlook "error") as He.
  pose proof (Hlook "metadata") as Hm.
  clear Hlook Hsame. unfold envelope_base in *.
  destruct md1 as [x1|], md2 as [x2|]; simpl in *;
    repeat (rewrite lookup_insert_eq in * || (rewrite lookup_insert_ne in * by done));
    rewrite ?lookup_empty in *;
    try discriminate Hm.
  - injection Hc as Hc. injection He as He. injection Hm as Hm.
    by rewrite (ErrorCode_value_inj _ _ Hc), He, Hm.
  - injection Hc as Hc. injection He as He.
    by rewrite (ErrorCode_value_inj _ _ Hc), He.
Qed.

Lemma toJSON_injective_witness :
  TIMEOUT = TIMEOUT
  ∧ "Operation timed out" = "Operation timed out"
  ∧ (None : option Metadata) = None.
Proof.
  exact (toJSON_injective TIMEOUT TIMEOUT "Operation timed out" "Operation timed out"
           None None eq_refl).
Defined.

Lemma toJSON_lookup_code (this : ModuleError) :
  toJSON this !! "code" = Some (VNum (ErrorCode_value (code this))).
Proof.
  rewrite toJSON_unfold. unfold envelope_base.
  destruct (metadata this); by rewrite ?lookup_insert_ne, lookup_insert_eq by done.
Qed.

Lemma toJSON_lookup_metadata (this : ModuleError) :
  toJSON this !! "metadata" = VObj <$> metadata this.
Proof.
  rewrite toJSON_unfold. unfold envelope_base.
  destruct (metadata this); simpl; [by rewrite lookup_insert_eq|].
  by rewrite !lookup_insert_ne, lookup_empty by done.
Qed.

(** X3.  The factories with an optional string argument test its
    truthiness: an empty string gives the same error as leaving the
    argument out, which is the error with the generic message ([notFound]
    and [quotaExceeded] then carry no metadata); a non-empty one is written
    into the message, and [notFound] and [quotaExceeded] record it as
    metadata.  [invalidSecret] records the secret name as metadata whatever
    the reason, given or not. *)
Theorem optional_string_arguments (resource secretName : string) :
  notFound resource (Some "") = notFound resource None
  ∧ quotaExceeded (Some "") = quotaExceeded None
  ∧ invalidSecret secretName (Some "") = invalidSecret secretName None
  ∧ notFound resource None
    = new_ModuleError NOT_FOUND (resource +:+ " not found") None
  ∧ quotaExceeded None = new_ModuleError QUOTA_EXCEEDED "Quota exceeded" None
  ∧ invalidSecret secretName None
    = new_ModuleError INVALID_SECRET
        ("Secret " +:+ dq +:+ secretName +:+ dq +:+ " is invalid")
        (Some {[ "secretName" := VStr secretName ]})
  ∧ (∀ reason, metadata (invalidSecret secretName reason)
               = Some {[ "secretName" := VStr secretName ]})
  ∧ (∀ a x,
       notFound resource (Some (String a x))
       = new_ModuleError NOT_FOUND
           (resource +:+ " " +:+ dq +:+ String a x +:+ dq +:+ " not found")
           (Some {[ "identifier" := VStr (String a x) ]})
       ∧ quotaExceeded (Some (String a x))
         = new_ModuleError QUOTA_EXCEEDED (String a x +:+ " quota exceeded")
             (Some {[ "quotaType" := VStr (String a x) ]})
       ∧ invalidSecret secretName (Some (String a x))
         = new_ModuleError INVALID_SECRET
             ("Secret " +:+ dq +:+ secretName +:+ dq +:+ " is invalid: " +:+ String a x)
             (Some {[ "secretName" := VStr secretName ]})).
Proof. repeat split; reflexivity. Qed.

(** X4.  Whatever the arguments, the envelope of an error made by a
    factory carries the code of that factory; the factories that take a
    name ([missingField], [missingSecret], [invalidSecret], [notImplemented])
    always serialize it under [metadata]. *)
Theorem factory_envelopes (msg name_ : string) (md : option Metadata)
    (reason : option string) (n : option number) :
  toJSON (validationError msg md) !! "code" = Some (VNum 1001%float)
  ∧ toJSON (missingField name_) !! "code" = Some (VNum 1002%float)
  ∧ toJSON (missingSecret name_) !! "code" = Some (VNum 2001%float)
  ∧ toJSON (invalidSecret name_ reason) !! "code" = Some (VNum 2002%float)
  ∧ toJSON (apiError msg md) !! "code" = Some (VNum 3001%float)
  ∧ toJSON (networkError msg md) !! "code" = Some (VNum 3002%float)
  ∧ toJSON (timeout name_ n) !! "code" = Some (VNum 3003%float)
  ∧ toJSON (notFound name_ reason) !! "code" = Some (VNum 3004%float)
  ∧ toJSON (rateLimitError n) !! "code" = Some (VNum 4001%float)
  ∧ toJSON (quotaExceeded reason) !! "code" = Some (VNum 4002%float)
  ∧ toJSON (internalError msg md) !! "code" = Some (VNum 5001%float)
  ∧ toJSON (notImplemented name_) !! "code" = Some (VNum 5002%float)
  ∧ toJSON (configurationError msg md) !! "code" = Some (VNum 5003%float)
  ∧ toJSON (missingField name_) !! "metadata" = Some (VObj {[ "field" := VStr name_ ]})
  ∧ toJSON (missingSecret name_) !! "metadata"
    = Some (VObj {[ "secretName" := VStr name_ ]})
  ∧ toJSON (invalidSecret name_ reason) !! "metadata"
    = Some (VObj {[ "secretName" := VStr name_ ]})
  ∧ toJSON (notImplemented name_) !! "metadata" = Some (VObj {[ "feature" := VStr name_ ]}).
Proof.
  rewrite !toJSON_lookup_code, !toJSON_lookup_metadata.
  repeat split; reflexivity.
Qed.

End ErrorsExtras.

(** ** Context resolver, continued *)

Section ContextExtras.
Import Js Errors Types Context Samples.

Lemma extractContext_returns (body : RequestBodyWithContext) (h : Host) :
  ∃ c, extractContext body h
       = (Normal c,
          match context body with
          | Some ctx => if p_requestId ctx is Some _ then h else drawn_one h
          | None => drawn_one h
          end).
Proof.
  destruct (context body) as [ctx|] eqn:Hctx.
  - eexists. by apply extractContext_some_context.
  - eexists. by apply extractContext_no_context.
Qed.

Lemma drawn_one_neq (h : Host) : drawn_one h ≠ h.
Proof.
  intros Heq. apply (f_equal uuid_drawn) in Heq. simpl in Heq. lia.
Qed.

(** X5.  [extractContext] never throws.  Of the host it leaves the clock,
    the load time and the identifier generator as they are, and draws at
    most one identifier: none exactly when the context is present and
    supplies a [requestId]. *)
Theorem extractContext_host_footprint (body : RequestBodyWithContext) (h : Host) :
  ∃ c h',
    extractContext body h = (Normal c, h')
    ∧ loaded_at h' = loaded_at h
    ∧ clock h' = clock h
    ∧ uuid_source h' = uuid_source h
    ∧ (uuid_drawn h' = uuid_drawn h ∨ uuid_drawn h' = S (uuid_drawn h))
    ∧ (h' = h ↔ ∃ ctx r, context body = Some ctx ∧ p_requestId ctx = Some r).
Proof.
  destruct (extractContext_returns body h) as [c Hc].
  eexists c, _. split; [exact Hc|].
  destruct (context body) as [ctx|];
    [destruct (p_requestId ctx) as [r|] eqn:Hr|]; simpl.
  - do 3 (split; [reflexivity|]). split; [by left|].
    split; [intros _; by exists ctx, r | reflexivity].
  - do 3 (split; [reflexivity|]). split; [by right|].
    split.
    + intros Heq. by destruct (drawn_one_neq h).
    + intros (ctx' & r & [= <-] & Hr'). rewrite Hr in Hr'. discriminate Hr'.
  - do 3 (split; [reflexivity|]). split; [by right|].
    split.
    + intros Heq. by destruct (drawn_one_neq h).
    + intros (ctx' & r & Hc' & _). discriminate Hc'.
Qed.

(** X6.  The timestamp of the shared default never reaches a result: two
    hosts that differ only in the time the module was loaded give the same
    context.  A context that supplies both [timestamp] and [requestId] is
    resolved without reading the host at all. *)
Theorem extractContext_ignores_load_time (body : RequestBodyWithContext) (h : Host)
    (t0 : number) :
  fst (extractContext body h)
  = fst (extractContext body {| loaded_at := t0; clock := clock h;
                                uuid_source := uuid_source h;
                                uuid_drawn := uuid_drawn h |})
  ∧ (∀ ctx t r h2,
       context body = Some ctx → p_timestamp ctx = Some t → p_requestId ctx = Some r →
       extractContext body h = (fst (extractContext body h2), h)).
Proof.
  split.
  - destruct (context body) as [ctx|] eqn:Hctx.
    + by rewrite !(extractContext_some_context _ _ _ Hctx).
    + by rewrite !(extractContext_no_context _ _ Hctx).
  - intros ctx t r h2 Hctx Ht Hr.
    rewrite !(extractContext_some_context _ _ _ Hctx), Ht, Hr. reflexivity.
Qed.

Lemma extractContext_ignores_load_time_witness :
  extractContext
    (body_with (Some {| p_userId := None; p_conversationId := None;
                        p_displayName := None; p_timestamp := Some 5%float;
                        p_requestId := Some "req_1"; p_secrets := None |}))
    host0
  = (fst (extractContext
            (body_with (Some {| p_userId := None; p_conversationId := None;
                                p_displayName := None; p_timestamp := Some 5%float;
                                p_requestId := Some "req_1"; p_secrets := None |}))
            (drawn_one host0)),
     host0).
Proof.
  pose proof (extractContext_ignores_load_time
    (body_with (Some {| p_userId := None; p_conversationId := None;
                        p_displayName := None; p_timestamp := Some 5%float;
                        p_requestId := Some "req_1"; p_secrets := None |}))
    host0 0%float) as [_ H].
  exact (H _ 5%float "req_1" (drawn_one host0) eq_refl eq_refl eq_refl).
Defined.

(** X7.  Required and optional lookup read the same value:
    [getRequiredSecret] returns exactly when what [getOptionalSecret]
    returns is neither [undefined] nor the empty string, and returns that
    same value; for strings, it returns [v] exactly when
    [getOptionalSecret] returns [v] and [v] is not empty.
    [getOptionalSecret] never throws and leaves the context as it was. *)
Theorem required_and_optional_agree (context : ModuleContext) (secretName : string)
    (p : property string) :
  (fst (getRequiredSecret context secretName) = Normal p
   ↔ fst (getOptionalSecret context secretName) = Normal p
     ∧ p ≠ OwnProperty "" ∧ p ≠ NoProperty)
  ∧ (∀ v : string,
       fst (getRequiredSecret context secretName) = Normal (OwnProperty v)
       ↔ fst (getOptionalSecret context secretName) = Normal (OwnProperty v) ∧ v ≠ "")
  ∧ (∃ o, getOptionalSecret context secretName = (Normal o, context)).
Proof.
  rewrite getRequiredSecret_unfold, getOptionalSecret_unfold. simpl.
  split; [|split; [|by eexists]].
  - destruct (get_property (secrets context) secretName) as [[|a u]|n|]; simpl.
    + split; [discriminate|]. intros ([= <-] & Hne & _). done.
    + split; [intros [= <-]; by repeat split | by intros ([= <-] & _)].
    + split; [intros [= <-]; by repeat split | by intros ([= <-] & _)].
    + split; [discriminate|]. intros ([= <-] & _ & Hne). done.
  - intros v.
    destruct (get_property (secrets context) secretName) as [[|a u]|n|]; simpl.
    + split; [discriminate|]. intros ([= <-] & Hne). done.
    + split; [intros [= <-]; by split | by intros ([= <-] & _)].
    + split; [discriminate | intros [Habs _]; discriminate Habs].
    + split; [discriminate | intros [Habs _]; discriminate Habs].
Qed.

(** X8.  [extractToolContext] never throws; the tool context is the
    context [extractContext] resolves, with the bindings attached as they
    were given.  Its secrets are those the request supplied, or the empty
    object when the context supplies none, or those of the shared default
    when there is no context.  An optional lookup on it reads these
    secrets; when the context supplies no secrets, every required lookup
    of a name that is not inherited from [Object.prototype] throws and
    every such optional lookup is [undefined]. *)
Theorem extractToolContext_secrets {Env} (body : RequestBodyWithContext) (e : Env)
    (h : Host) :
  ∃ tc h',
    extractToolContext body e h = (Normal tc, h')
    ∧ extractContext body h = (Normal (base tc), h')
    ∧ env tc = e
    ∧ secrets (base tc)
      = match context body with
        | Some ctx => default ∅ (p_secrets ctx)
        | None => secrets (DEFAULT_MODULE_CONTEXT (loaded_at h))
        end
    ∧ (∀ name, fst (getOptionalSecret (base tc) name)
               = Normal (get_property (secrets (base tc)) name))
    ∧ (∀ ctx, context body = Some ctx → p_secrets ctx = None →
         ∀ name, name ∉ Object_prototype_names →
                 (∃ err, fst (getRequiredSecret (base tc) name) = Throw err)
                 ∧ fst (getOptionalSecret (base tc) name) = Normal NoProperty)
    ∧ (∀ ctx s, context body = Some ctx → p_secrets ctx = Some s →
         ∀ name, fst (getOptionalSecret (base tc) name) = Normal (get_property s name)).
Proof.
  destruct (extractContext_returns body h) as [c Hc].
  exists (createToolContext c e). eexists.
  unfold extractToolContext, bind. rewrite Hc.
  cbn [createToolContext base env ret].
  split; [reflexivity|]. split; [reflexivity|]. split; [reflexivity|].
  assert (Hs : secrets c
    = match context body with
      | Some ctx => default ∅ (p_secrets ctx)
      | None => secrets (DEFAULT_MODULE_CONTEXT (loaded_at h))
      end).
  { destruct (context body) as [ctx|] eqn:Hctx.
    - rewrite (extractContext_some_context _ _ _ Hctx) in Hc.
      injection Hc as <-. reflexivity.
    - rewrite (extractContext_no_context _ _ Hctx) in Hc.
      injection Hc as <-. reflexivity. }
  split; [exact Hs|]. split; [intros name; by rewrite getOptionalSecret_unfold|].
  split.
  - intros ctx Hctx Hnone name Hname.
    rewrite getRequiredSecret_unfold, getOptionalSecret_unfold, Hs, Hctx, Hnone.
    cbn [default].
    rewrite (get_property_none _ _ (lookup_empty name) Hname). simpl. eauto.
  - intros ctx s Hctx Hsome name.
    by rewrite getOptionalSecret_unfold, Hs, Hctx, Hsome.
Qed.

Lemma extractToolContext_secrets_witness :
  ∃ tc h',
    extractToolContext (body_with (Some empty_partial)) tt host0 = (Normal tc, h')
    ∧ (∃ err, fst (getRequiredSecret (base tc) "API_KEY") = Throw err)
    ∧ fst (getOptionalSecret (base tc) "API_KEY") = Normal NoProperty.
Proof.
  destruct (extractToolContext_secrets (body_with (Some empty_partial)) tt host0)
    as (tc & h' & Ht & _ & _ & _ & _ & Hnone & _).
  exists tc, h'. split; [exact Ht|].
  apply (Hnone empty_partial eq_refl eq_refl "API_KEY").
  apply (bool_decide_eq_false_1 ("API_KEY" ∈ Object_prototype_names)).
  reflexivity.
Defined.

End ContextExtras.

(** ** Response envelope, continued *)

Section SchemasExtras.
Import Js Errors Zod Schemas Samples.

Lemma z_literal_None (b : bool) (data : gmap string value) :
  data !! "success" ≠ Some (VBool b) →
  z_literal (VBool b) (prop data "success") = None.
Proof.
  intros Hne. destruct (z_literal (VBool b) (prop data "success")) eqn:Hl; [|done].
  destruct Hne. apply z_literal_bool. by eexists.
Qed.

(** The success branch without payload. *)
Lemma z_object_success_only (data : gmap string value) :
  z_object (<[ "success" := z_literal (VBool true) ]> ∅) (VObj data)
  = match data !! "success" with
    | Some (VBool true) => Some (VObj (<[ "success" := VBool true ]> ∅))
    | _ => None
    end.
Proof.
  unfold z_object. case_decide as H.
  - apply map_Forall_insert in H as [Hs _]; [|done].
    apply z_literal_bool in Hs.
    rewrite map_imap_insert, map_imap_empty.
    unfold z_object_field, prop. by rewrite Hs.
  - destruct (data !! "success") as [[| |[]|n|s|l|o]|] eqn:Hs; try reflexivity.
    exfalso. apply H.
    apply map_Forall_insert; [done|]. split; [|apply map_Forall_empty].
    by apply z_literal_bool.
Qed.

Lemma z_object_not_object (shape : gmap string schema) (v : value) :
  (∀ data, v ≠ VObj data) → z_object shape v = None.
Proof. intros Hv. destruct v; try reflexivity. by destruct (Hv o). Qed.

(** The whole of [SimpleSuccessSchema]. *)
Lemma SimpleSuccessSchema_unfold (v : value) :
  SimpleSuccessSchema v
  = match v with
    | VObj data =>
        match data !! "success" with
        | Some (VBool true) => Some (VObj (<[ "success" := VBool true ]> ∅))
        | Some (VBool false) =>
            match data !! "error" with
            | Some (VStr e) =>
                Some (VObj (<[ "error" := VStr e ]> (<[ "success" := VBool false ]> ∅)))
            | _ => None
            end
        | _ => None
        end
    | _ => None
    end.
Proof.
  unfold SimpleSuccessSchema, z_union.
  destruct v as [| |b|n|s|l|data]; try reflexivity.
  rewrite z_object_success_only, z_object_error_shape.
  destruct (data !! "success") as [[| |[]|n|s|l|o]|]; try reflexivity.
  by destruct (data !! "error") as [[| |b'|n|s|l|o]|].
Qed.

(** X9.  [SimpleSuccessSchema] accepts an object whose [success] is
    literally [true] and returns [{success: true}]; it accepts one whose
    [success] is literally [false] and whose [error] is a string and returns
    these two properties; every other property of the input is dropped, and
    every other input is rejected.  It is [SuccessResponseSchema] of the
    empty payload. *)
Theorem SimpleSuccessSchema_decides (v : value) :
  SimpleSuccessSchema v
  = match v with
    | VObj data =>
        match data !! "success" with
        | Some (VBool true) => Some (VObj (<[ "success" := VBool true ]> ∅))
        | Some (VBool false) =>
            match data !! "error" with
            | Some (VStr e) =>
                Some (VObj (<[ "error" := VStr e ]> (<[ "success" := VBool false ]> ∅)))
            | _ => None
            end
        | _ => None
        end
    | _ => None
    end
  ∧ SimpleSuccessSchema v = SuccessResponseSchema {| shape := ∅ |} v.
Proof.
  split; [apply SimpleSuccessSchema_unfold|].
  unfold SimpleSuccessSchema, SuccessResponseSchema, spread_obj. simpl.
  by rewrite (left_id_L ∅ (∪)).
Qed.

(** X10.  What [SimpleSuccessSchema] returns it accepts and returns
    again: validating a validated envelope changes nothing. *)
Theorem SimpleSuccessSchema_idempotent (v out : value)
    (Hout : SimpleSuccessSchema v = Some out) :
  SimpleSuccessSchema out = Some out.
Proof.
  rewrite SimpleSuccessSchema_unfold in Hout.
  destruct v as [| |b|n|s|l|data]; try discriminate Hout.
  destruct (data !! "success") as [[| |[]|n|s|l|o]|]; try discriminate Hout.
  - injection Hout as <-. rewrite SimpleSuccessSchema_unfold.
    by rewrite lookup_insert_eq.
  - destruct (data !! "error") as [[| |b'|n|s|l|o]|]; try discriminate Hout.
    injection Hout as <-. rewrite SimpleSuccessSchema_unfold.
    rewrite lookup_insert_ne, lookup_insert_eq by done.
    by rewrite lookup_insert_eq.
Qed.

Lemma SimpleSuccessSchema_idempotent_witness :
  SimpleSuccessSchema
    (VObj (<[ "error" := VStr "Operation failed" ]> (<[ "success" := VBool false ]> ∅)))
  = Some (VObj (<[ "error" := VStr "Operation failed" ]> (<[ "success" := VBool false ]> ∅))).
Proof.
  apply (SimpleSuccessSchema_idempotent
           (VObj (<[ "unexpectedField" := VStr "value" ]>
                    (<[ "error" := VStr "Operation failed" ]>
                       (<[ "success" := VBool false ]> ∅))))).
  vm_compute. reflexivity.
Defined.

Lemma SuccessResponseSchema_unfold (dataSchema : ZodObject) (v : value) :
  SuccessResponseSchema dataSchema v
  = match z_object (spread_obj (shape dataSchema)
                      (<[ "success" := z_literal (VBool true) ]> ∅)) v with
    | Some r => Some r
    | None =>
        z_object (<[ "error" := z_string ]>
                    (<[ "success" := z_literal (VBool false) ]> ∅)) v
    end.
Proof.
  unfold SuccessResponseSchema, z_union.
  destruct (z_object (spread_obj _ _) v); [reflexivity|].
  apply first_or_none.
Qed.

(** The first branch refuses whatever does not carry the literal [true],
    when the payload leaves [success] alone. *)
Lemma success_branch_needs_true (dataSchema : ZodObject) (data : gmap string value) :
  shape dataSchema !! "success" = None →
  data !! "success" ≠ Some (VBool true) →
  z_object (spread_obj (shape dataSchema)
              (<[ "success" := z_literal (VBool true) ]> ∅)) (VObj data) = None.
Proof.
  intros Hfresh Hne. rewrite (success_shape _ Hfresh).
  apply (z_object_field_fails _ _ "success" (z_literal (VBool true))).
  - by rewrite lookup_insert_eq.
  - by apply z_literal_None.
Qed.

(** X11.  For a payload that declares no [success] field,
    [SuccessResponseSchema] rejects whatever is not an object, and every
    object whose [success] is missing or is not a boolean. *)
Theorem SuccessResponseSchema_needs_literal (dataSchema : ZodObject) (v : value)
    (Hfresh : shape dataSchema !! "success" = None)
    (Hno : ∀ data b, v = VObj data → data !! "success" ≠ Some (VBool b)) :
  SuccessResponseSchema dataSchema v = None.
Proof.
  rewrite SuccessResponseSchema_unfold.
  destruct v as [| |b|n|s|l|data]; try reflexivity.
  rewrite (success_branch_needs_true _ _ Hfresh (Hno data true eq_refl)).
  rewrite z_object_error_shape.
  pose proof (Hno data false eq_refl) as Hf.
  by destruct (data !! "success") as [[| |[]|n|s|l|o]|].
Qed.

Lemma SuccessResponseSchema_needs_literal_witness :
  SuccessResponseSchema payload_x (VObj (<[ "x" := VNum 1%float ]> ∅)) = None
  ∧ SuccessResponseSchema payload_x
      (VObj (<[ "x" := VNum 1%float ]> (<[ "success" := VStr "true" ]> ∅))) = None
  ∧ SuccessResponseSchema payload_x (VStr "success") = None.
Proof.
  split; [|split].
  - apply (SuccessResponseSchema_needs_literal payload_x _ eq_refl).
    intros data b [= <-]. rewrite lookup_insert_ne, lookup_empty by done. done.
  - apply (SuccessResponseSchema_needs_literal payload_x _ eq_refl).
    intros data b [= <-]. rewrite lookup_insert_ne, lookup_insert_eq by done. done.
  - apply (SuccessResponseSchema_needs_literal payload_x _ eq_refl).
    intros data b Habs. discriminate Habs.
Defined.

Lemma z_object_output_keys (shape : gmap string schema) (v out : value) :
  z_object shape v = Some out →
  ∃ o, out = VObj o ∧ ∀ key, shape !! key = None → o !! key = None.
Proof.
  unfold z_object. destruct v as [| |b|n|s|l|data]; try discriminate.
  case_decide; [|discriminate]. intros [= <-].
  eexists. split; [reflexivity|].
  intros key Hk. by rewrite map_lookup_imap, Hk.
Qed.

(** X12.  Whatever the payload, what [SuccessResponseSchema] returns is an
    object with no property besides [success], [error] and those the
    payload declares: the other properties of the input are dropped. *)
Theorem SuccessResponseSchema_strips (dataSchema : ZodObject) (v out : value)
    (Hout : SuccessResponseSchema dataSchema v = Some out) :
  ∃ o, out = VObj o
       ∧ ∀ key, shape dataSchema !! key = None →
                key ≠ "success" → key ≠ "error" → o !! key = None.
Proof.
  rewrite SuccessResponseSchema_unfold in Hout.
  destruct (z_object (spread_obj _ _) v) as [r|] eqn:Hfirst.
  - injection Hout as <-.
    destruct (z_object_output_keys _ _ _ Hfirst) as (o & -> & Ho).
    exists o. split; [reflexivity|]. intros key Hk Hs _. apply Ho.
    unfold spread_obj. apply lookup_union_None. split; [exact Hk|].
    by rewrite lookup_insert_ne, lookup_empty.
  - destruct (z_object_output_keys _ _ _ Hout) as (o & -> & Ho).
    exists o. split; [reflexivity|]. intros key _ Hs He. apply Ho.
    by rewrite !lookup_insert_ne, lookup_empty.
Qed.

Lemma SuccessResponseSchema_strips_witness :
  ∃ o, VObj (<[ "success" := VBool true ]> (<[ "x" := VNum 1%float ]> ∅)) = VObj o
       ∧ o !! "unexpectedField" = None.
Proof.
  destruct (SuccessResponseSchema_strips payload_x
              (VObj (<[ "unexpectedField" := VStr "value" ]>
                       (<[ "x" := VNum 1%float ]> (<[ "success" := VBool true ]> ∅))))
              (VObj (<[ "success" := VBool true ]> (<[ "x" := VNum 1%float ]> ∅))))
    as (o & Ho & Hk).
  - vm_compute. reflexivity.
  - exists o. split; [exact Ho|]. by apply Hk.
Defined.

Lemma toJSON_lookup_success (this : ModuleError) :
  toJSON this !! "success" = Some (VBool false).
Proof.
  rewrite toJSON_unfold. unfold envelope_base.
  destruct (metadata this); by rewrite !lookup_insert_ne, lookup_insert_eq by done.
Qed.

Lemma toJSON_lookup_error (this : ModuleError) :
  toJSON this !! "error" = Some (VStr (message this)).
Proof.
  rewrite toJSON_unfold. unfold envelope_base.
  destruct (metadata this);
    by rewrite ?(lookup_insert_ne _ "metadata"), (lookup_insert_ne _ "code"),
         lookup_insert_eq by done.
Qed.

(** X13.  The envelope of any error passes the response schemas as an
    error response: [SimpleSuccessSchema], and [SuccessResponseSchema] of a
    payload that declares no [success] field, accept [toJSON()] and return
    [{success: false, error: message}], without the code and the
    metadata. *)
Theorem toJSON_is_an_error_response (dataSchema : ZodObject) (this : ModuleError)
    (Hfresh : shape dataSchema !! "success" = None) :
  SuccessResponseSchema dataSchema (VObj (toJSON this))
  = Some (VObj (<[ "error" := VStr (message this) ]> (<[ "success" := VBool false ]> ∅)))
  ∧ SimpleSuccessSchema (VObj (toJSON this))
    = Some (VObj (<[ "error" := VStr (message this) ]> (<[ "success" := VBool false ]> ∅))).
Proof.
  split.
  - rewrite SuccessResponseSchema_unfold.
    rewrite (success_branch_needs_true _ _ Hfresh)
      by (by rewrite toJSON_lookup_success).
    by rewrite z_object_error_shape, toJSON_lookup_success, toJSON_lookup_error.
  - by rewrite SimpleSuccessSchema_unfold, toJSON_lookup_success, toJSON_lookup_error.
Qed.

Lemma toJSON_is_an_error_response_witness :
  SuccessResponseSchema payload_x (VObj (toJSON (rateLimitError (Some 60%float))))
  = Some (VObj (<[ "error" := VStr "Rate limit exceeded" ]>
                  (<[ "success" := VBool false ]> ∅))).
Proof.
  apply (toJSON_is_an_error_response payload_x (rateLimitError (Some 60%float)) eq_refl).
Defined.

End SchemasExtras.

(** ** Validators, continued *)

Section ValidatorsExtras.
Import Js Zod validators Samples.

Lemma emailList_array (is_email : string → bool) (l : list value) :
  emailList is_email (VArr l) =
    if forallb (λ v, match v with VStr s => is_email s | _ => false end) l
    then Some (VArr l) else None.
Proof.
  unfold emailList, or, z_union, z_array.
  rewrite mapM_email_values. by destruct (forallb _ l).
Qed.

Lemma emailList_string (is_email : string → bool) (s : string) :
  emailList is_email (VStr s) =
    if forallb is_email (Js.trim <$> split "," s)
    then Some (VArr (VStr <$> (Js.trim <$> split "," s))) else None.
Proof.
  unfold emailList, or, z_union, pipe, transform. simpl.
  rewrite mapM_email_values, forallb_email_strings.
  by destruct (forallb _ _).
Qed.

(** X14.  Normalizing is idempotent: what [emailList] returns it accepts
    and returns unchanged. *)
Theorem emailList_idempotent (is_email : string → bool) (v out : value)
    (Hout : emailList is_email v = Some out) :
  emailList is_email out = Some out.
Proof.
  destruct v as [| |b|n|s|l|o]; try discriminate Hout.
  - rewrite emailList_string in Hout.
    destruct (forallb is_email _) eqn:Hall; [|discriminate Hout].
    injection Hout as <-.
    by rewrite emailList_array, forallb_email_strings, Hall.
  - rewrite emailList_array in Hout.
    destruct (forallb _ l) eqn:Hall; [|discriminate Hout].
    injection Hout as <-.
    by rewrite emailList_array, Hall.
Qed.

Lemma emailList_idempotent_witness :
  emailList (at_inside false) (VArr [VStr "a@example.com"; VStr "b@example.com"])
  = Some (VArr [VStr "a@example.com"; VStr "b@example.com"]).
Proof.
  apply (emailList_idempotent (at_inside false) (VStr " a@example.com ,b@example.com")).
  reflexivity.
Defined.

(** X15.  A string is handled as the array of its trimmed segments is.
    The empty array is accepted, but a string never normalizes to it: there
    is a segment even in the empty string. *)
Theorem emailList_string_as_array (is_email : string → bool) (s : string) :
  emailList is_email (VStr s)
  = emailList is_email (VArr (VStr <$> (Js.trim <$> split "," s)))
  ∧ emailList is_email (VArr []) = Some (VArr [])
  ∧ emailList is_email (VStr s) ≠ Some (VArr [])
  ∧ emailList is_email (VStr "") = (if is_email "" then Some (VArr [VStr ""]) else None).
Proof.
  split; [|split; [|split]].
  - rewrite emailList_string, emailList_array, forallb_email_strings. reflexivity.
  - reflexivity.
  - rewrite emailList_string.
    pose proof (split_not_nil "," s) as Hne.
    destruct (split "," s) as [|seg rest]; [done|].
    csimpl. destruct (_ && _); discriminate.
  - rewrite emailList_string.
    change (Js.trim <$> split "," "") with [""].
    cbn [forallb]. destruct (is_email ""); reflexivity.
Qed.

(** X16.  [optionalString] lets [undefined] and every non-empty string
    through unchanged, turns the empty string into [undefined], and rejects
    everything else, [null] included.  It never returns the empty string,
    and what it returns it returns again. *)
Theorem optionalString_decides (v : value) :
  optionalString v
  = match v with
    | VUndefined => Some VUndefined
    | VStr EmptyString => Some VUndefined
    | VStr (String _ _) => Some v
    | _ => None
    end
  ∧ optionalString v ≠ Some (VStr "")
  ∧ match optionalString v with
    | Some out => optionalString out = Some out
    | None => True
    end.
Proof.
  destruct v as [| |b|n|s|l|o]; try (by repeat split).
  destruct s as [|a s]; by repeat split.
Qed.

Lemma trimmedString_string (s : string) :
  trimmedString (VStr s)
  = match Js.trim s with
    | EmptyString => None
    | String _ _ => Some (VStr (Js.trim s))
    end.
Proof.
  unfold trimmedString, z_min, z_trim, z_string. simpl.
  by destruct (Js.trim s).
Qed.

Lemma nonEmptyString_string (s : string) :
  nonEmptyString (VStr s)
  = match s with
    | EmptyString => None
    | String _ _ => Some (VStr s)
    end.
Proof. by destruct s. Qed.

(** X17.  Whatever [trimmedString] accepts is a string, and what it
    returns is that string trimmed: not empty, with no white space at
    either end, accepted again unchanged by [trimmedString], and accepted
    unchanged by [nonEmptyString]. *)
Theorem trimmedString_output (v out : value)
    (Hout : trimmedString v = Some out) :
  ∃ s t, v = VStr s ∧ out = VStr t ∧ t = Js.trim s
         ∧ t ≠ ""
         ∧ (∀ c u, t = String c u → is_white_space c = false)
         ∧ (∀ u c, t = u +:+ String c EmptyString → is_white_space c = false)
         ∧ trimmedString out = Some out
         ∧ nonEmptyString out = Some out.
Proof.
  destruct v as [| |b|n|s|l|o]; try discriminate Hout.
  rewrite trimmedString_string in Hout.
  destruct (Js.trim s) as [|a t] eqn:Ht; [discriminate Hout|].
  injection Hout as <-.
  exists s, (String a t).
  pose proof (trim_no_surrounding_white_space s) as [Hhead Hlast].
  rewrite Ht in Hhead, Hlast.
  split; [reflexivity|]. split; [reflexivity|]. split; [by rewrite Ht|].
  split; [discriminate|].
  split; [by intros c u [= <- <-]|].
  split; [exact Hlast|].
  split; [|reflexivity].
  rewrite trimmedString_string.
  by rewrite <- Ht, trim_idempotent, Ht.
Qed.

Lemma trimmedString_output_witness :
  ∃ s t, VStr "  hello  " = VStr s ∧ VStr "hello" = VStr t ∧ t = Js.trim s ∧ t ≠ "".
Proof.
  destruct (trimmedString_output (VStr "  hello  ") (VStr "hello") eq_refl)
    as (s & t & Hs & Ht & Htrim & Hne & _).
  by exists s, t.
Defined.

Lemma trimStart_white_space (s : string) :
  (∀ i c, String.get i s = Some c → is_white_space c = true) →
  trimStart s = "".
Proof.
  induction s as [|a s IH]; intros Hall; [reflexivity|].
  simpl. rewrite (Hall 0%nat a eq_refl).
  apply IH. intros i c Hi. by apply (Hall (S i)).
Qed.

(** X18.  A string made of white space only, if not empty, passes
    [nonEmptyString] unchanged and is rejected by [trimmedString]. *)
Theorem white_space_only_strings (s : string)
    (Hne : s ≠ "")
    (Hws : ∀ i c, String.get i s = Some c → is_white_space c = true) :
  nonEmptyString (VStr s) = Some (VStr s)
  ∧ trimmedString (VStr s) = None.
Proof.
  split.
  - rewrite nonEmptyString_string. by destruct s.
  - rewrite trimmedString_string.
    by rewrite (proj2 (trim_empty_iff_trimStart_empty s) (trimStart_white_space s Hws)).
Qed.

Lemma white_space_only_strings_witness :
  nonEmptyString (VStr "   ") = Some (VStr "   ")
  ∧ trimmedString (VStr "   ") = None.
Proof.
  apply (white_space_only_strings "   "); [discriminate|].
  intros [|[|[|i]]] c [= <-]; reflexivity.
Defined.

Lemma prefix_empty (s : string) : String.prefix "" s = true.
Proof. by destruct s. Qed.

(** X19.  [apiKey(prefix)] accepts exactly the strings of at least ten
    code units that start with the prefix, an absent or empty prefix
    asking nothing ([apiKey("")] is [apiKey()]); it returns them unchanged,
    and whatever it accepts for some prefix it accepts for none. *)
Theorem apiKey_decides (prefix : option string) (v : value) :
  apiKey prefix v
  = match v with
    | VStr s =>
        if bool_decide (10 ≤ String.length s)%nat && String.prefix (default "" prefix) s
        then Some v else None
    | _ => None
    end
  ∧ apiKey (Some "") v = apiKey None v
  ∧ match apiKey prefix v with
    | Some out => out = v ∧ apiKey None v = Some v
    | None => True
    end.
Proof.
  assert (Hbase : apiKey None v
    = match v with
      | VStr s => if bool_decide (10 ≤ String.length s)%nat then Some v else None
      | _ => None
      end) by (by destruct v).
  assert (Hdec : apiKey prefix v
    = match v with
      | VStr s =>
          if bool_decide (10 ≤ String.length s)%nat && String.prefix (default "" prefix) s
          then Some v else None
      | _ => None
      end).
  { destruct prefix as [[|a p]|].
    - change (apiKey (Some "") v) with (apiKey None v).
      rewrite Hbase. destruct v as [| |b|n|s|l|o]; try reflexivity.
      cbn [default]. rewrite prefix_empty. by destruct (bool_decide _).
    - unfold apiKey, z_refine, z_min, z_string.
      destruct v as [| |b|n|s|l|o]; try reflexivity. simpl.
      by destruct (bool_decide _).
    - rewrite Hbase. destruct v as [| |b|n|s|l|o]; try reflexivity.
      cbn [default]. rewrite prefix_empty. by destruct (bool_decide _). }
  split; [exact Hdec|]. split; [reflexivity|].
  rewrite Hdec, Hbase.
  destruct v as [| |b|n|s|l|o]; try exact I.
  destruct (bool_decide _); simpl; [|exact I].
  by destruct (String.prefix _ s).
Qed.

Section UrlGrammar.
Variable is_url : string → bool.

(** X20.  Whatever the engine's URL grammar, [httpsUrl] accepts exactly
    the strings of the grammar that start with [https://] and returns them
    unchanged; so it rejects every string that starts with [http://], and
    whatever it accepts [url] accepts too. *)
Theorem httpsUrl_decides (v : value) :
  httpsUrl is_url v
  = match v with
    | VStr s => if is_url s && String.prefix "https://" s then Some v else None
    | _ => None
    end
  ∧ (∀ rest, httpsUrl is_url (VStr ("http://" +:+ rest)) = None)
  ∧ match httpsUrl is_url v with
    | Some out => out = v ∧ url is_url v = Some v
    | None => True
    end.
Proof.
  assert (Hdec : ∀ w, httpsUrl is_url w
    = match w with
      | VStr s => if is_url s && String.prefix "https://" s then Some w else None
      | _ => None
      end).
  { intros w. unfold httpsUrl, z_refine, z_url, z_string.
    destruct w as [| |b|n|s|l|o]; try reflexivity. simpl.
    by destruct (is_url s). }
  split; [apply Hdec|]. split.
  - intros rest. rewrite Hdec.
    replace (String.prefix "https://" ("http://" +:+ rest)) with false by reflexivity.
    by rewrite andb_false_r.
  - rewrite Hdec. destruct v as [| |b|n|s|l|o]; try exact I.
    unfold url, z_url, z_string. simpl.
    destruct (is_url s); simpl; [|exact I].
    by destruct (String.prefix _ s).
Qed.

End UrlGrammar.

End ValidatorsExtras.
